(** * Hole-data ETL pipeline ([pipeline.py]): a shallow embedding

    The transform phase of the pipeline turns a table of parts, each carrying
    a JSON string that lists its holes, into a table of holes and a table of
    reachability flags.  This file embeds the Python functions of
    [pipeline.py] ([extract_hole_feature], [extract_hole], [extract_holes],
    [create_holes_df], [has_warning], [has_error], [create_unreachable_df],
    [transform]) together with the pandas operations they call, and proves
    the properties stated about them.

    Conventions.
    - A Python value decoded by [json.loads] is a [pyval].  JSON objects are
      finite maps from strings ([gmap string pyval]); Python [int]s are [Z];
      Python [float]s are binary64 numbers (the kernel's [float]).
    - A Python call either returns or raises: [outcome A].  A third outcome,
      [Unmodelled], marks the two places where the behaviour is not fixed by
      the source but by pandas/CPython internals that this embedding does not
      cover: [DataFrame.apply] on a frame without rows, and [>] between two
      lists.  No theorem below treats [Unmodelled] as a result.
    - A [dict] built by the code keeps insertion order: [pydict]. *)

From Stdlib Require Import ZArith String List Bool Lia.
From Stdlib Require Import Floats.PrimFloat Floats.FloatOps Floats.SpecFloat.
From stdpp Require Import base option list gmap strings fin_maps.

Local Open Scope Z_scope.
Local Open Scope string_scope.

(** ** Python values *)

#[local] Set Warnings "-register-all".

Inductive pyval : Type :=
| PNone
| PBool (b : bool)
| PInt (z : Z)
| PFloat (f : float)
| PStr (s : string)
| PList (l : list pyval)
| PDict (m : gmap string pyval).

(** [float('nan')], which pandas uses for a missing cell. *)
Definition NaN : pyval := PFloat nan.

(** ** Exceptions and outcomes *)

Inductive exn : Type :=
| KeyError
| TypeError
| ValueError
| OverflowError
| JSONDecodeError.

#[export] Instance exn_eq_dec : EqDecision exn.
Proof. solve_decision. Defined.

Inductive outcome (A : Type) : Type :=
| Ok (a : A)
| Raise (e : exn)
| Unmodelled.

Arguments Ok {A} a.
Arguments Raise {A} e.
Arguments Unmodelled {A}.

#[export] Instance outcome_ret : MRet outcome := fun A a => Ok a.

#[export] Instance outcome_bind : MBind outcome := fun A B k m =>
  match m with
  | Ok a => k a
  | Raise e => Raise e
  | Unmodelled => Unmodelled
  end.

(** [try: m except e: h] *)
Definition try_except {A} (m : outcome A) (e : exn) (h : outcome A) : outcome A :=
  match m with
  | Raise e' => if decide (e' = e) then h else Raise e'
  | _ => m
  end.

(** ** Insertion-ordered dictionaries *)

Definition pydict (V : Type) : Type := list (string * V).

Section Pydict.
Context {V : Type}.

(** [d.get(k)], [None] when [k not in d] *)
Fixpoint dict_get (d : pydict V) (k : string) : option V :=
  match d with
  | [] => None
  | (k', v) :: d' => if String.eqb k' k then Some v else dict_get d' k
  end.

(** [d[k] = v]: an existing key keeps its position *)
Fixpoint dict_set (d : pydict V) (k : string) (v : V) : pydict V :=
  match d with
  | [] => [(k, v)]
  | (k', v') :: d' =>
      if String.eqb k' k then (k, v) :: d' else (k', v') :: dict_set d' k v
  end.

Definition dict_keys (d : pydict V) : list string := map fst d.

Definition dict_values (d : pydict V) : list V := map snd d.

End Pydict.

(** ** Python operators used by the pipeline *)

(** [v[k]] for a string key [k] *)
Definition py_getitem (v : pyval) (k : string) : outcome pyval :=
  match v with
  | PDict m =>
      match m !! k with
      | Some x => Ok x
      | None => Raise KeyError
      end
  | _ => Raise TypeError
  end.

Fixpoint chars (s : string) : list string :=
  match s with
  | EmptyString => []
  | String c s' => String c EmptyString :: chars s'
  end.

(** The elements a [for] loop over [v] visits. *)
Definition py_iter (v : pyval) : outcome (list pyval) :=
  match v with
  | PList l => Ok l
  | PDict m => Ok (map (fun kv => PStr (fst kv)) (map_to_list m))
  | PStr s => Ok (map PStr (chars s))
  | _ => Raise TypeError
  end.

(** [float(n)] for an [int] [n], as CPython converts the [int] operand of a
    mixed operation: rounded to nearest-even, [OverflowError] beyond the
    binary64 range. *)
Definition float_of_int (n : Z) : outcome float :=
  let f := SF2Prim (binary_normalize prec emax n 0 false) in
  if is_infinity f then Raise OverflowError else Ok f.

Fixpoint repeat_string (s : string) (n : nat) : string :=
  match n with
  | O => EmptyString
  | S n' => s ++ repeat_string s n'
  end.

Fixpoint repeat_list {A} (l : list A) (n : nat) : list A :=
  match n with
  | O => []
  | S n' => l ++ repeat_list l n'
  end.

(** [x * n] where [n] is an [int] literal *)
Definition py_mul_int (x : pyval) (n : Z) : outcome pyval :=
  match x with
  | PNone => Raise TypeError
  | PBool b => Ok (PInt (Z.b2z b * n))
  | PInt z => Ok (PInt (z * n))
  | PFloat f => g ← float_of_int n; Ok (PFloat (f * g)%float)
  | PStr s => Ok (PStr (repeat_string s (Z.to_nat n)))
  | PList l => Ok (PList (repeat_list l (Z.to_nat n)))
  | PDict _ => Raise TypeError
  end.

(** Exact comparison of an [int] with a [float] (CPython does not round the
    [int]): [a > f] and [f > a]. *)
Definition float_sign_mag (s : bool) (m : positive) : Z :=
  if s then Z.neg m else Z.pos m.

Definition int_gt_float (a : Z) (f : float) : bool :=
  match Prim2SF f with
  | S754_nan => false
  | S754_zero _ => Z.ltb 0 a
  | S754_infinity s => s
  | S754_finite s m e =>
      if Z.leb 0 e then Z.ltb (float_sign_mag s m * 2 ^ e) a
      else Z.ltb (float_sign_mag s m) (a * 2 ^ (- e))
  end.

Definition float_gt_int (f : float) (a : Z) : bool :=
  match Prim2SF f with
  | S754_nan => false
  | S754_zero _ => Z.ltb a 0
  | S754_infinity s => negb s
  | S754_finite s m e =>
      if Z.leb 0 e then Z.ltb a (float_sign_mag s m * 2 ^ e)
      else Z.ltb (a * 2 ^ (- e)) (float_sign_mag s m)
  end.

Inductive pynum : Type :=
| NInt (z : Z)
| NFloat (f : float).

(** [bool] is a subclass of [int]. *)
Definition as_num (v : pyval) : option pynum :=
  match v with
  | PBool b => Some (NInt (Z.b2z b))
  | PInt z => Some (NInt z)
  | PFloat f => Some (NFloat f)
  | _ => None
  end.

Definition num_gt (a b : pynum) : bool :=
  match a, b with
  | NInt x, NInt y => Z.gtb x y
  | NFloat x, NFloat y => PrimFloat.ltb y x
  | NInt x, NFloat y => int_gt_float x y
  | NFloat x, NInt y => float_gt_int x y
  end.

(** [a > b].  Strings compare by code point, which for UTF-8 text is the
    order of the bytes.  Lists compare element by element with object
    identity taken into account, which is not modelled. *)
Definition py_gt (a b : pyval) : outcome bool :=
  match as_num a, as_num b with
  | Some x, Some y => Ok (num_gt x y)
  | _, _ =>
      match a, b with
      | PStr s, PStr t => Ok (String.ltb t s)
      | PList _, PList _ => Unmodelled
      | _, _ => Raise TypeError
      end
  end.

Example float_of_int_rounds : float_of_int (2 ^ 53 + 1) = Ok 9007199254740992%float.
Proof. vm_compute. reflexivity. Qed.

Example float_of_int_overflows : float_of_int (10 ^ 400) = Raise OverflowError.
Proof. vm_compute. reflexivity. Qed.

Example int_float_compare_exact :
  int_gt_float (2 ^ 53 + 1) 9007199254740992%float = true
  /\ int_gt_float 1 1.5%float = false
  /\ float_gt_int 1.5%float 1 = true
  /\ float_gt_int 0.5%float 0 = true
  /\ int_gt_float 0 (-0.5)%float = true.
Proof. vm_compute. auto. Qed.

Example py_gt_mixed :
  py_gt (PInt 100) (PFloat 80.5) = Ok true
  /\ py_gt (PFloat 80.5) (PInt 100) = Ok false
  /\ py_gt (PBool true) (PInt 0) = Ok true
  /\ py_gt (PStr "b") (PStr "abc") = Ok true
  /\ py_gt (PInt 1) (PStr "a") = Raise TypeError
  /\ py_gt (PFloat nan) (PInt 0) = Ok false.
Proof. vm_compute. auto 10. Qed.

(** ** Per-hole extraction *)

(** [extract_hole_feature(hole, feature, subfeature)]: only [KeyError] is
    caught. *)
Definition extract_hole_feature (hole : pyval) (feature : string)
    (subfeature : option string) : outcome pyval :=
  try_except
    (match subfeature with
     | Some sub => x ← py_getitem hole feature; py_getitem x sub
     | None => py_getitem hole feature
     end)
    KeyError
    (Ok PNone).

(** [extract_hole(hole)] *)
Definition extract_hole (hole : pyval) : outcome (pydict pyval) :=
  let d := [] in
  v ← extract_hole_feature hole "center" (Some "x");
  let d := dict_set d "center_x" v in
  v ← extract_hole_feature hole "center" (Some "y");
  let d := dict_set d "center_y" v in
  v ← extract_hole_feature hole "center" (Some "z");
  let d := dict_set d "center_z" v in
  v ← extract_hole_feature hole "direction" (Some "x");
  let d := dict_set d "direction_x" v in
  v ← extract_hole_feature hole "direction" (Some "y");
  let d := dict_set d "direction_y" v in
  v ← extract_hole_feature hole "direction" (Some "z");
  let d := dict_set d "direction_z" v in
  v ← extract_hole_feature hole "end1" (Some "closed");
  let d := dict_set d "end1_closed" v in
  v ← extract_hole_feature hole "end1" (Some "reachable");
  let d := dict_set d "end1_reachable" v in
  v ← extract_hole_feature hole "end2" (Some "closed");
  let d := dict_set d "end2_closed" v in
  v ← extract_hole_feature hole "end2" (Some "reachable");
  let d := dict_set d "end2_reachable" v in
  v ← extract_hole_feature hole "facet_count" None;
  let d := dict_set d "facet_count" v in
  v ← extract_hole_feature hole "length" None;
  let d := dict_set d "length" v in
  v ← extract_hole_feature hole "radius" None;
  let d := dict_set d "radius" v in
  Ok d.

(** The thirteen keys, in the order [extract_hole] inserts them. *)
Definition feature_names : list string :=
  [ "center_x"; "center_y"; "center_z";
    "direction_x"; "direction_y"; "direction_z";
    "end1_closed"; "end1_reachable"; "end2_closed"; "end2_reachable";
    "facet_count"; "length"; "radius" ].

(** ** Per-part extraction *)

(** The [holes] cell of a part row.  The cell is null ([None] or [NaN]) or a
    string; a string is represented by what [json.loads] does with it:
    [HJson v] is a string that decodes to [v] (["[]"] is [HJson (PList [])]),
    [HInvalid s] a string [s] that [json.loads] rejects (such as the empty
    string). *)
Inductive holes_field : Type :=
| HNull
| HJson (v : pyval)
| HInvalid (s : string).

(** [pd.isnull(holes)] *)
Definition isnull_field (holes : holes_field) : bool :=
  match holes with
  | HNull => true
  | _ => false
  end.

(** [json.loads(holes)] *)
Definition json_loads (holes : holes_field) : outcome pyval :=
  match holes with
  | HJson v => Ok v
  | HInvalid _ => Raise JSONDecodeError
  | HNull => Raise TypeError
  end.

(** [dout[key].append(value)] on a [defaultdict(list)] *)
Fixpoint dict_append {V} (dout : pydict (list V)) (key : string) (value : V)
    : pydict (list V) :=
  match dout with
  | [] => [(key, [value])]
  | (k, l) :: dout' =>
      if String.eqb k key then (k, (l ++ [value])%list) :: dout'
      else (k, l) :: dict_append dout' key value
  end.

(** The inner loop [for key, value in d.items(): dout[key].append(value)] *)
Definition combine_hole (dout : pydict (list pyval)) (d : pydict pyval)
    : pydict (list pyval) :=
  fold_left (fun acc kv => dict_append acc (fst kv) (snd kv)) d dout.

(** The outer loop [for hole in holes: ...] *)
Fixpoint holes_loop (holes : list pyval) (dout : pydict (list pyval))
    : outcome (pydict (list pyval)) :=
  match holes with
  | [] => Ok dout
  | hole :: rest =>
      d ← extract_hole hole;
      holes_loop rest (combine_hole dout d)
  end.

(** [extract_holes(holes)] *)
Definition extract_holes (holes : holes_field) : outcome (pydict (list pyval)) :=
  if isnull_field holes then Ok []
  else
    parsed ← json_loads holes;
    elems ← py_iter parsed;
    holes_loop elems [].

(** ** Tables *)

(** A pandas [Series]: index name and (label, value) items. *)
Record Series (V : Type) : Type := mkSeries {
  s_index_name : option string;
  s_items : list (Z * V)
}.
Arguments mkSeries {V} _ _.
Arguments s_index_name {V} _.
Arguments s_items {V} _.

(** A pandas [DataFrame]: index name, column labels, and one (label, row) per
    row, a row holding its cells by column label. *)
Record DataFrame (C : Type) : Type := mkDataFrame {
  df_index_name : option string;
  df_columns : list string;
  df_rows : list (Z * pydict C)
}.
Arguments mkDataFrame {C} _ _ _.
Arguments df_index_name {C} _.
Arguments df_columns {C} _.
Arguments df_rows {C} _.

(** The parts table as the transform reads it: of each part row only the
    index label and the [holes] cell are used. *)
Record Parts : Type := mkParts {
  parts_index_name : option string;
  parts_rows : list (Z * holes_field)
}.

(** [extract(filename)], given the table [pd.read_parquet] returned. *)
Definition extract (read : Parts) : Parts :=
  {| parts_index_name := Some "part_index"; parts_rows := parts_rows read |}.

(** [row[c]] *)
Definition row_get {C} (row : pydict C) (c : string) : outcome C :=
  match dict_get row c with
  | Some v => Ok v
  | None => Raise KeyError
  end.

(** ** The pandas operations the transform calls *)

(** [df.apply(f, axis=1)]: [f] is called on each row in order and the results
    are collected under the frame's index; the first exception ends the call.
    On a frame without rows pandas does not call [f] on any row and the shape
    of what it returns depends on the pandas version. *)
Definition apply_rows {R V} (f : R → outcome V) (name : option string)
    (rows : list (Z * R)) : outcome (Series V) :=
  match rows with
  | [] => Unmodelled
  | _ =>
      items ← mapM (fun ir => v ← f (snd ir); Ok (fst ir, v)) rows;
      Ok (mkSeries name items)
  end.

Definition mem (k : string) (l : list string) : bool :=
  existsb (String.eqb k) l.

Fixpoint nodupb (l : list string) : bool :=
  match l with
  | [] => true
  | k :: l' => negb (mem k l') && nodupb l'
  end.

(** The union of the keys of a list of dicts, in order of first appearance. *)
Definition add_keys (acc : list string) (ks : list string) : list string :=
  fold_left (fun acc k => if mem k acc then acc else (acc ++ [k])%list) ks acc.

Definition union_keys {V} (ds : list (pydict V)) : list string :=
  fold_left (fun acc d => add_keys acc (dict_keys d)) ds [].

(** [s.apply(pd.Series)] on a series of dicts: one column per key, a cell
    being the dict's value for the key or [NaN] ([None] here) when the dict
    lacks it. *)
Definition apply_pd_Series {V} (s : Series (pydict V))
    : outcome (DataFrame (option V)) :=
  match s_items s with
  | [] => Unmodelled
  | items =>
      let cols := union_keys (map snd items) in
      Ok (mkDataFrame (s_index_name s) cols
            (map (fun iv => (fst iv, map (fun c => (c, dict_get (snd iv) c)) cols))
               items))
  end.

(** What [Series.explode] makes of one cell: the elements of a non-empty
    list, and a single [NaN] for an empty list or a missing cell. *)
Definition explode_cell (c : option (list pyval)) : list pyval :=
  match c with
  | Some (x :: l) => x :: l
  | _ => [NaN]
  end.

Definition mylen (c : option (list pyval)) : nat := length (explode_cell c).

Definition counts_match (row : pydict (option (list pyval))) : bool :=
  match map mylen (dict_values row) with
  | [] => true
  | n :: ns => forallb (Nat.eqb n) ns
  end.

Definition explode_row (ir : Z * pydict (option (list pyval)))
    : list (Z * pydict pyval) :=
  let n := match dict_values (snd ir) with
           | [] => O
           | c :: _ => mylen c
           end in
  map (fun j => (fst ir,
                 map (fun kc => (fst kc, nth j (explode_cell (snd kc)) NaN)) (snd ir)))
    (seq 0 n).

(** [df.explode(list(df.columns))]: every column is exploded, the rows of one
    part keep the part's index label. *)
Definition explode (df : DataFrame (option (list pyval)))
    : outcome (DataFrame pyval) :=
  if negb (nodupb (df_columns df)) then Raise ValueError
  else
    match df_columns df with
    | [] => Raise ValueError
    | _ =>
        if forallb (fun ir => counts_match (snd ir)) (df_rows df) then
          Ok (mkDataFrame (df_index_name df) (df_columns df)
                (flat_map explode_row (df_rows df)))
        else Raise ValueError
    end.

(** [pd.isna] on a cell *)
Definition isna (v : pyval) : bool :=
  match v with
  | PNone => true
  | PFloat f => is_nan f
  | _ => false
  end.

Definition all_na (row : pydict pyval) : bool := forallb isna (dict_values row).

(** [df.dropna(axis=0, how='all')] *)
Definition dropna_all (df : DataFrame pyval) : DataFrame pyval :=
  mkDataFrame (df_index_name df) (df_columns df)
    (List.filter (fun ir => negb (all_na (snd ir))) (df_rows df)).

(** [df.reset_index(drop=False)]: the index becomes the first column, under
    its name, and the rows are numbered from 0. *)
Definition reset_index (df : DataFrame pyval) : outcome (DataFrame pyval) :=
  let name := match df_index_name df with
              | Some n => n
              | None => if mem "index" (df_columns df) then "level_0" else "index"
              end in
  if mem name (df_columns df) then Raise ValueError
  else
    Ok (mkDataFrame None (name :: df_columns df)
          (imap (fun j ir => (Z.of_nat j, (name, PInt (fst ir)) :: snd ir))
             (df_rows df))).

(** [df.rename(columns={old: new})] *)
Definition rename_columns {C} (old new : string) (df : DataFrame C) : DataFrame C :=
  let ren := fun k => if String.eqb k old then new else k in
  mkDataFrame (df_index_name df) (map ren (df_columns df))
    (map (fun ir => (fst ir, map (fun kc => (ren (fst kc), snd kc)) (snd ir)))
       (df_rows df)).

(** [df.index.name = name] *)
Definition set_index_name {C} (df : DataFrame C) (name : string) : DataFrame C :=
  mkDataFrame (Some name) (df_columns df) (df_rows df).

(** [df[name] = s] for a series [s] that carries the index of [df]. *)
Definition set_column {C} (df : DataFrame C) (name : string) (s : Series C)
    : DataFrame C :=
  mkDataFrame (df_index_name df)
    (if mem name (df_columns df) then df_columns df
     else (df_columns df ++ [name])%list)
    (zip_with (fun ir iv => (fst ir, dict_set (snd ir) name (snd iv)))
       (df_rows df) (s_items s)).

(** [df[[c1, ..., cn]]] *)
Definition select_columns {C} (df : DataFrame C) (cols : list string)
    : outcome (DataFrame C) :=
  if forallb (fun c => mem c (df_columns df)) cols then
    Ok (mkDataFrame (df_index_name df) cols
          (map (fun ir =>
                  (fst ir,
                   flat_map (fun c => match dict_get (snd ir) c with
                                      | Some v => [(c, v)]
                                      | None => []
                                      end) cols))
             (df_rows df)))
  else Raise KeyError.

(** [df.drop(columns=[c1, ..., cn])] *)
Definition drop_columns {C} (df : DataFrame C) (cols : list string)
    : outcome (DataFrame C) :=
  if forallb (fun c => mem c (df_columns df)) cols then
    Ok (mkDataFrame (df_index_name df)
          (List.filter (fun c => negb (mem c cols)) (df_columns df))
          (map (fun ir =>
                  (fst ir, List.filter (fun kc => negb (mem (fst kc) cols)) (snd ir)))
             (df_rows df)))
  else Raise KeyError.

(** ** The transform *)

(** [create_holes_df(df)] *)
Definition create_holes_df (df : Parts) : outcome (DataFrame pyval) :=
  df_holes ← apply_rows extract_holes (parts_index_name df) (parts_rows df);
  df_holes ← apply_pd_Series df_holes;
  df_holes ← explode df_holes;
  let df_holes := dropna_all df_holes in
  df_holes ← reset_index df_holes;
  let df_holes := rename_columns "index" "part_index" df_holes in
  Ok (set_index_name df_holes "hole_index").

(** [has_warning(length, radius)] *)
Definition has_warning (length radius : pyval) : outcome bool :=
  r ← py_mul_int radius 2;
  r ← py_mul_int r 10;
  py_gt length r.

(** [has_error(length, radius)] *)
Definition has_error (length radius : pyval) : outcome bool :=
  r ← py_mul_int radius 2;
  r ← py_mul_int r 40;
  py_gt length r.

Definition warning_col : string := "has_unreachable_hole_warning".
Definition error_col : string := "has_unreachable_hole_error".

(** The two [lambda row: ...] of [create_unreachable_df] *)
Definition row_warning (row : pydict pyval) : outcome pyval :=
  length ← row_get row "length";
  radius ← row_get row "radius";
  b ← has_warning length radius;
  Ok (PBool b).

Definition row_error (row : pydict pyval) : outcome pyval :=
  length ← row_get row "length";
  radius ← row_get row "radius";
  b ← has_error length radius;
  Ok (PBool b).

(** [create_unreachable_df(df_holes)] *)
Definition create_unreachable_df (df_holes : DataFrame pyval)
    : outcome (DataFrame pyval * DataFrame pyval) :=
  w ← apply_rows row_warning (df_index_name df_holes) (df_rows df_holes);
  let df_holes := set_column df_holes warning_col w in
  e ← apply_rows row_error (df_index_name df_holes) (df_rows df_holes);
  let df_holes := set_column df_holes error_col e in
  df_unreachable ← select_columns df_holes [warning_col; error_col];
  df_holes ← drop_columns df_holes [warning_col; error_col];
  Ok (df_holes, df_unreachable).

(** [transform(df)] *)
Definition transform (df : Parts) : outcome (DataFrame pyval * DataFrame pyval) :=
  df_holes ← create_holes_df df;
  create_unreachable_df df_holes.

(** ** Sample runs *)

Definition hole_100_4 : pyval :=
  PDict {[ "length" := PInt 100; "radius" := PInt 4 ]}.
Definition hole_500_4 : pyval :=
  PDict {[ "length" := PInt 500; "radius" := PInt 4;
           "center" := PDict {[ "x" := PFloat 1.5; "y" := PInt 0 ]} ]}.

Definition sample_parts : Parts :=
  mkParts None
    [ (0, HJson (PList [hole_100_4; hole_500_4]));
      (1, HNull);
      (2, HJson (PList []));
      (3, HJson (PList [PDict ∅; hole_100_4])) ].

(** * Properties *)

(** ** Reasoning about outcomes *)

Lemma bind_Ok {A B} (m : outcome A) (k : A → outcome B) (b : B) :
  (m ≫= k) = Ok b ↔ ∃ a, m = Ok a ∧ k a = Ok b.
Proof.
  destruct m as [a| |]; simpl; split.
  - intros H. exists a. auto.
  - intros (a' & Ha & Hk). injection Ha as ->. exact Hk.
  - discriminate.
  - intros (a' & Ha & _). discriminate.
  - discriminate.
  - intros (a' & Ha & _). discriminate.
Qed.

(** Splits a hypothesis [x ← m; k = Ok b] into its two halves. *)
Ltac inv_bind H :=
  let a := fresh "a" in
  let Ha := fresh "Ha" in
  apply bind_Ok in H; destruct H as (a & Ha & H).

Lemma mapM_Ok_length {A B} (f : A → outcome B) (l : list A) (k : list B) :
  mapM f l = Ok k → length k = length l.
Proof.
  revert k. induction l as [|x l IH]; intros k H; simpl in H.
  - injection H as <-. reflexivity.
  - inv_bind H. inv_bind H. injection H as <-. simpl. f_equal. auto.
Qed.

Lemma mapM_Ok_Forall2 {A B} (f : A → outcome B) (l : list A) (k : list B) :
  mapM f l = Ok k ↔ Forall2 (fun x y => f x = Ok y) l k.
Proof.
  revert k. induction l as [|x l IH]; intros k; simpl; split.
  - intros H. injection H as <-. constructor.
  - intros H. inversion H. reflexivity.
  - intros H. inv_bind H. inv_bind H. injection H as <-.
    constructor; [assumption | apply IH; assumption].
  - intros H. inversion H as [|? y ? k' Hx Hl]; subst.
    apply IH in Hl. rewrite Hx. simpl. rewrite Hl. reflexivity.
Qed.

(** When a row fails, [mapM] stops with the error of the first such row. *)
Lemma mapM_first_Raise {A B} (f : A → outcome B) (pre post : list A) (x : A)
    (ys : list B) (e : exn) :
  Forall2 (fun a y => f a = Ok y) pre ys →
  f x = Raise e →
  mapM f (pre ++ x :: post) = Raise e.
Proof.
  intros Hpre Hx. induction Hpre as [|a y pre ys Ha _ IH]; simpl.
  - rewrite Hx. reflexivity.
  - rewrite Ha. simpl. rewrite IH. reflexivity.
Qed.

(** ** The feature extraction rule *)

Lemma getitem_dict (m : gmap string pyval) (k : string) :
  py_getitem (PDict m) k =
    match m !! k with
    | Some x => Ok x
    | None => Raise KeyError
    end.
Proof. reflexivity. Qed.

Lemma extract_feature_top (m : gmap string pyval) (feature : string) :
  extract_hole_feature (PDict m) feature None = Ok (default PNone (m !! feature)).
Proof.
  unfold extract_hole_feature. rewrite getitem_dict.
  destruct (m !! feature); reflexivity.
Qed.

Lemma extract_feature_sub (m : gmap string pyval) (feature sub : string) :
  extract_hole_feature (PDict m) feature (Some sub) =
    match m !! feature with
    | None => Ok PNone
    | Some (PDict m') => Ok (default PNone (m' !! sub))
    | Some _ => Raise TypeError
    end.
Proof.
  unfold extract_hole_feature. rewrite getitem_dict.
  destruct (m !! feature) as [x|]; [|reflexivity].
  destruct x; try reflexivity.
  simpl. destruct (_ !! sub); reflexivity.
Qed.

Lemma extract_feature_not_dict (hole : pyval) (feature : string)
    (sub : option string) :
  (∀ m, hole ≠ PDict m) →
  extract_hole_feature hole feature sub = Raise TypeError.
Proof.
  intros H. destruct hole; try (destruct sub; reflexivity).
  exfalso. eapply H. reflexivity.
Qed.

(** C1 (as amended).  With a subfeature given, the rule returns
    [descriptor[feature][subfeature]] when the feature is an object holding
    the subfeature; it returns null, raising nothing, when the feature is
    absent or is an object that lacks the subfeature; and when the feature is
    present with the value null, the lookup raises [TypeError], which the
    rule does not catch.  With no subfeature it returns [descriptor[feature]],
    or null when the feature is absent, and raises nothing. *)
Theorem extract_hole_feature_rule (m : gmap string pyval) (feature sub : string) :
  (∀ m' v, m !! feature = Some (PDict m') → m' !! sub = Some v →
     extract_hole_feature (PDict m) feature (Some sub) = Ok v)
  ∧ (m !! feature = None →
     extract_hole_feature (PDict m) feature (Some sub) = Ok PNone)
  ∧ (∀ m', m !! feature = Some (PDict m') → m' !! sub = None →
     extract_hole_feature (PDict m) feature (Some sub) = Ok PNone)
  ∧ (m !! feature = Some PNone →
     extract_hole_feature (PDict m) feature (Some sub) = Raise TypeError)
  ∧ extract_hole_feature (PDict m) feature None = Ok (default PNone (m !! feature)).
Proof.
  rewrite extract_feature_sub. split; [|split; [|split; [|split]]].
  - intros m' v -> ->. reflexivity.
  - intros ->. reflexivity.
  - intros m' -> ->. reflexivity.
  - intros ->. reflexivity.
  - apply extract_feature_top.
Qed.

Definition hole_center_object : gmap string pyval :=
  {[ "center" := PDict {[ "x" := PInt 7 ]} ]}.
Definition hole_center_null : gmap string pyval := {[ "center" := PNone ]}.

Lemma extract_hole_feature_rule_witness :
  extract_hole_feature (PDict hole_center_object) "center" (Some "x") = Ok (PInt 7)
  ∧ extract_hole_feature (PDict hole_center_object) "direction" (Some "x") = Ok PNone
  ∧ extract_hole_feature (PDict hole_center_object) "center" (Some "y") = Ok PNone
  ∧ extract_hole_feature (PDict hole_center_null) "center" (Some "x") = Raise TypeError
  ∧ extract_hole_feature (PDict hole_center_null) "center" None = Ok PNone.
Proof.
  split; [|split; [|split; [|split]]].
  - apply (proj1 (extract_hole_feature_rule hole_center_object "center" "x")
             {[ "x" := PInt 7 ]} (PInt 7)); reflexivity.
  - apply (proj1 (proj2 (extract_hole_feature_rule hole_center_object "direction" "x")));
      reflexivity.
  - apply (proj1 (proj2 (proj2 (extract_hole_feature_rule hole_center_object "center" "y")))
             {[ "x" := PInt 7 ]}); reflexivity.
  - apply (proj1 (proj2 (proj2 (proj2
             (extract_hole_feature_rule hole_center_null "center" "x")))));
      reflexivity.
  - exact (proj2 (proj2 (proj2 (proj2
             (extract_hole_feature_rule hole_center_null "center" "x"))))).
Defined.

(** C1 as stated fails: the descriptor [{"center": null}] has a null feature,
    and extracting [center.x] from it raises instead of yielding null. *)
Lemma extract_hole_feature_null_feature_raises :
  hole_center_null !! "center" = Some PNone
  ∧ extract_hole_feature (PDict hole_center_null) "center" (Some "x") = Raise TypeError.
Proof. split; reflexivity. Qed.

(** ** Per-hole extraction *)

(** The record [extract_hole] builds from thirteen extracted values. *)
Definition hole_record (v : list pyval) : pydict pyval :=
  combine feature_names v.

Lemma extract_hole_Ok_shape (hole : pyval) (d : pydict pyval) :
  extract_hole hole = Ok d →
  ∃ v1 v2 v3 v4 v5 v6 v7 v8 v9 v10 v11 v12 v13,
    d = hole_record [v1; v2; v3; v4; v5; v6; v7; v8; v9; v10; v11; v12; v13].
Proof.
  unfold extract_hole. intros H.
  do 13 (let v := fresh "v" in
         let Hv := fresh "Hv" in
         apply bind_Ok in H; destruct H as (v & Hv & H)).
  injection H as <-. repeat eexists.
Qed.

Lemma extract_hole_Ok_keys (hole : pyval) (d : pydict pyval) :
  extract_hole hole = Ok d → dict_keys d = feature_names.
Proof.
  intros H. apply extract_hole_Ok_shape in H.
  destruct H as (v1 & v2 & v3 & v4 & v5 & v6 & v7 & v8 & v9 & v10 & v11 & v12 & v13 & ->).
  reflexivity.
Qed.

(** A feature group of a descriptor is usable when it is absent or an object. *)
Definition group_ok (m : gmap string pyval) (g : string) : bool :=
  match m !! g with
  | None | Some (PDict _) => true
  | Some _ => false
  end.

Definition groups_ok (m : gmap string pyval) : bool :=
  group_ok m "center" && group_ok m "direction"
  && group_ok m "end1" && group_ok m "end2".

Lemma extract_feature_sub_ok (m : gmap string pyval) (g sub : string) :
  group_ok m g = true →
  ∃ v, extract_hole_feature (PDict m) g (Some sub) = Ok v.
Proof.
  unfold group_ok. rewrite extract_feature_sub.
  destruct (m !! g) as [[]|]; try discriminate; eauto.
Qed.

Lemma extract_feature_sub_bad (m : gmap string pyval) (g sub : string) :
  group_ok m g = false →
  extract_hole_feature (PDict m) g (Some sub) = Raise TypeError.
Proof.
  unfold group_ok. rewrite extract_feature_sub.
  destruct (m !! g) as [[]|]; try discriminate; reflexivity.
Qed.

Lemma extract_hole_total (m : gmap string pyval) :
  extract_hole (PDict m) =
    if groups_ok m then
      Ok (hole_record
            (map (fun fs => match extract_hole_feature (PDict m) (fst fs) (snd fs) with
                            | Ok v => v
                            | _ => PNone
                            end)
               [ ("center", Some "x"); ("center", Some "y"); ("center", Some "z");
                 ("direction", Some "x"); ("direction", Some "y"); ("direction", Some "z");
                 ("end1", Some "closed"); ("end1", Some "reachable");
                 ("end2", Some "closed"); ("end2", Some "reachable");
                 ("facet_count", None); ("length", None); ("radius", None) ]))
    else Raise TypeError.
Proof.
  unfold groups_ok, extract_hole.
  destruct (group_ok m "center") eqn:Hc; cbn [andb];
    [|rewrite (extract_feature_sub_bad m "center" "x" Hc); reflexivity].
  destruct (extract_feature_sub_ok m "center" "x" Hc) as [v1 E1].
  destruct (extract_feature_sub_ok m "center" "y" Hc) as [v2 E2].
  destruct (extract_feature_sub_ok m "center" "z" Hc) as [v3 E3].
  destruct (group_ok m "direction") eqn:Hd; cbn [andb];
    [|rewrite E1, E2, E3, (extract_feature_sub_bad m "direction" "x" Hd); reflexivity].
  destruct (extract_feature_sub_ok m "direction" "x" Hd) as [v4 E4].
  destruct (extract_feature_sub_ok m "direction" "y" Hd) as [v5 E5].
  destruct (extract_feature_sub_ok m "direction" "z" Hd) as [v6 E6].
  destruct (group_ok m "end1") eqn:H1; cbn [andb];
    [|rewrite E1, E2, E3, E4, E5, E6, (extract_feature_sub_bad m "end1" "closed" H1);
      reflexivity].
  destruct (extract_feature_sub_ok m "end1" "closed" H1) as [v7 E7].
  destruct (extract_feature_sub_ok m "end1" "reachable" H1) as [v8 E8].
  destruct (group_ok m "end2") eqn:H2; cbn [andb];
    [|rewrite E1, E2, E3, E4, E5, E6, E7, E8,
        (extract_feature_sub_bad m "end2" "closed" H2); reflexivity].
  destruct (extract_feature_sub_ok m "end2" "closed" H2) as [v9 E9].
  destruct (extract_feature_sub_ok m "end2" "reachable" H2) as [v10 E10].
  cbn [map fst snd].
  rewrite E1, E2, E3, E4, E5, E6, E7, E8, E9, E10, !extract_feature_top.
  reflexivity.
Qed.

(** C10 (as amended).  Whenever per-hole extraction returns, the record has
    exactly the thirteen feature keys, in the order of [feature_names]; it
    returns for every descriptor object whose groups [center], [direction],
    [end1] and [end2] are each absent or an object, and raises [TypeError]
    for every other descriptor object. *)
Theorem extract_hole_thirteen_keys :
  (∀ hole d, extract_hole hole = Ok d → dict_keys d = feature_names)
  ∧ (∀ m, groups_ok m = true →
       ∃ d, extract_hole (PDict m) = Ok d ∧ dict_keys d = feature_names)
  ∧ (∀ m, groups_ok m = false → extract_hole (PDict m) = Raise TypeError).
Proof.
  split; [exact extract_hole_Ok_keys | split].
  - intros m Hm. rewrite extract_hole_total, Hm. eexists. split; reflexivity.
  - intros m Hm. rewrite extract_hole_total, Hm. reflexivity.
Qed.

Lemma extract_hole_thirteen_keys_witness :
  (∃ d, extract_hole (PDict {[ "length" := PInt 100; "radius" := PInt 4 ]}) = Ok d
        ∧ dict_keys d = feature_names)
  ∧ extract_hole (PDict hole_center_null) = Raise TypeError.
Proof.
  split.
  - apply (proj1 (proj2 extract_hole_thirteen_keys)). reflexivity.
  - apply (proj2 (proj2 extract_hole_thirteen_keys)). reflexivity.
Defined.

(** C10 as stated fails: for the descriptor object [{"center": null}]
    per-hole extraction returns no record at all. *)
Lemma extract_hole_null_group_raises :
  extract_hole (PDict hole_center_null) = Raise TypeError.
Proof. reflexivity. Qed.

(** ** Per-part extraction *)

Definition is_record (d : pydict pyval) : Prop :=
  ∃ v1 v2 v3 v4 v5 v6 v7 v8 v9 v10 v11 v12 v13,
    d = hole_record [v1; v2; v3; v4; v5; v6; v7; v8; v9; v10; v11; v12; v13].

Ltac destruct_record H :=
  let v1 := fresh "v" in let v2 := fresh "v" in let v3 := fresh "v" in
  let v4 := fresh "v" in let v5 := fresh "v" in let v6 := fresh "v" in
  let v7 := fresh "v" in let v8 := fresh "v" in let v9 := fresh "v" in
  let v10 := fresh "v" in let v11 := fresh "v" in let v12 := fresh "v" in
  let v13 := fresh "v" in
  destruct H as (v1 & v2 & v3 & v4 & v5 & v6 & v7 & v8 & v9 & v10 & v11 & v12 & v13 & H).

(** The value a record holds for a feature. *)
Definition feature_of (k : string) (d : pydict pyval) : pyval :=
  default PNone (dict_get d k).

(** The dict of columns [extract_holes] accumulates from the records of the
    holes seen so far: nothing before the first hole, then one list per
    feature. *)
Definition columns_of (ds : list (pydict pyval)) : pydict (list pyval) :=
  match ds with
  | [] => []
  | _ => map (fun k => (k, map (feature_of k) ds)) feature_names
  end.

Lemma combine_hole_columns (ds : list (pydict pyval)) (d : pydict pyval) :
  is_record d →
  combine_hole (columns_of ds) d = columns_of (ds ++ [d]).
Proof.
  intros Hd. destruct_record Hd. subst d.
  destruct ds as [|d0 ds]; [reflexivity|].
  unfold columns_of. cbn [app]. unfold feature_names. cbn [map].
  rewrite !map_app. reflexivity.
Qed.

(** The descriptors of a part, in array order. *)
Definition descriptors (holes : holes_field) : outcome (list pyval) :=
  match holes with
  | HNull => Ok []
  | HJson v => py_iter v
  | HInvalid _ => Raise JSONDecodeError
  end.

(** The records extracted from the descriptors of a part. *)
Definition part_holes (holes : holes_field) : outcome (list (pydict pyval)) :=
  hs ← descriptors holes; mapM extract_hole hs.

Lemma holes_loop_columns (hs : list pyval) (ds0 : list (pydict pyval)) :
  holes_loop hs (columns_of ds0) =
    (ds ← mapM extract_hole hs; Ok (columns_of (ds0 ++ ds))).
Proof.
  revert ds0. induction hs as [|h hs IH]; intros ds0.
  - simpl. rewrite app_nil_r. reflexivity.
  - cbn [holes_loop mapM]. destruct (extract_hole h) as [d| |] eqn:E; try reflexivity.
    cbn [mbind outcome_bind].
    rewrite combine_hole_columns by (eapply extract_hole_Ok_shape; eassumption).
    rewrite IH. destruct (mapM extract_hole hs) as [ds| |]; try reflexivity.
    simpl. rewrite <- app_assoc. reflexivity.
Qed.

Lemma extract_holes_columns (holes : holes_field) :
  extract_holes holes = (ds ← part_holes holes; Ok (columns_of ds)).
Proof.
  unfold extract_holes, part_holes. destruct holes as [|v|s]; try reflexivity.
  cbn [isnull_field json_loads descriptors mbind outcome_bind].
  destruct (py_iter v) as [hs| |]; try reflexivity.
  cbn [mbind outcome_bind]. apply (holes_loop_columns hs []).
Qed.

Lemma part_holes_records (holes : holes_field) (ds : list (pydict pyval)) :
  part_holes holes = Ok ds → Forall is_record ds.
Proof.
  unfold part_holes. intros H. inv_bind H. apply mapM_Ok_Forall2 in H.
  clear Ha. induction H as [|h d hs ds Hh _ IH]; constructor; [|exact IH].
  eapply extract_hole_Ok_shape. eassumption.
Qed.

(** ** The holes table *)

(** The records of every part, under the part's index label. *)
Definition extracted_parts (rows : list (Z * holes_field))
    : outcome (list (Z * list (pydict pyval))) :=
  mapM (fun ir => ds ← part_holes (snd ir); Ok (fst ir, ds)) rows.

Lemma apply_extract_holes (rows : list (Z * holes_field)) :
  mapM (fun ir => v ← extract_holes (snd ir); Ok (fst ir, v)) rows =
    (dss ← extracted_parts rows;
     Ok (map (fun ids => (fst ids, columns_of (snd ids))) dss)).
Proof.
  unfold extracted_parts. induction rows as [|[i f] rows IH]; [reflexivity|].
  cbn [mapM fst snd]. rewrite extract_holes_columns.
  destruct (part_holes f) as [ds| |]; try reflexivity.
  cbn [mbind outcome_bind]. rewrite IH.
  match goal with |- context [mapM ?g rows] => destruct (mapM g rows) end;
    reflexivity.
Qed.

Lemma extracted_parts_length rows dss :
  extracted_parts rows = Ok dss → length dss = length rows.
Proof. apply mapM_Ok_length. Qed.

Lemma extracted_parts_Forall2 rows dss :
  extracted_parts rows = Ok dss ↔
  Forall2 (fun ir ids => fst ids = fst ir ∧ part_holes (snd ir) = Ok (snd ids)) rows dss.
Proof.
  unfold extracted_parts. rewrite mapM_Ok_Forall2. split; intros H.
  - induction H as [|[i f] [j ds] rows dss H _ IH]; constructor; [|exact IH].
    cbn [fst snd] in *. inv_bind H. injection H as <- <-. auto.
  - induction H as [|[i f] [j ds] rows dss [H1 H2] _ IH]; constructor; [|exact IH].
    cbn [fst snd] in *. subst j. rewrite H2. reflexivity.
Qed.

Lemma extracted_parts_records rows dss :
  extracted_parts rows = Ok dss → Forall (fun ids => Forall is_record (snd ids)) dss.
Proof.
  rewrite extracted_parts_Forall2. intros H.
  induction H as [|ir ids rows dss [_ H] _ IH]; constructor; [|exact IH].
  eapply part_holes_records. eassumption.
Qed.

(** No part has a hole. *)
Definition no_holes (dss : list (Z * list (pydict pyval))) : bool :=
  forallb (fun ids => match snd ids with [] => true | _ => false end) dss.

Lemma columns_of_keys (ds : list (pydict pyval)) :
  dict_keys (columns_of ds) = match ds with [] => [] | _ => feature_names end.
Proof. destruct ds; reflexivity. Qed.

Lemma union_keys_from_features (dss : list (Z * list (pydict pyval))) :
  fold_left (fun acc d => add_keys acc (dict_keys d))
    (map (fun ids => columns_of (snd ids)) dss) feature_names = feature_names.
Proof.
  induction dss as [|[i ds] dss IH]; [reflexivity|].
  cbn [map fold_left snd]. rewrite columns_of_keys.
  destruct ds; exact IH.
Qed.

Lemma union_keys_columns (dss : list (Z * list (pydict pyval))) :
  union_keys (map (fun ids => columns_of (snd ids)) dss) =
    if no_holes dss then [] else feature_names.
Proof.
  unfold union_keys. induction dss as [|[i ds] dss IH]; [reflexivity|].
  cbn [map fold_left snd no_holes forallb]. rewrite columns_of_keys.
  destruct ds as [|d ds].
  - exact IH.
  - cbn [andb]. apply (union_keys_from_features dss).
Qed.

(** The cell of a part under a feature column before [explode]. *)
Definition cell_of (ds : list (pydict pyval)) (k : string) : option (list pyval) :=
  match ds with
  | [] => None
  | _ => Some (map (feature_of k) ds)
  end.

Lemma columns_of_cells (ds : list (pydict pyval)) :
  map (fun c => (c, dict_get (columns_of ds) c)) feature_names =
  map (fun c => (c, cell_of ds c)) feature_names.
Proof. destruct ds; reflexivity. Qed.

(** The row of [NaN]s a part without holes has after [explode]. *)
Definition nan_row : pydict pyval := map (fun k => (k, NaN)) feature_names.

Lemma record_features (d : pydict pyval) :
  is_record d → map (fun c => (c, feature_of c d)) feature_names = d.
Proof. intros H. destruct_record H. subst d. reflexivity. Qed.

Lemma transpose_columns (i : Z) (ds : list (pydict pyval)) :
  Forall is_record ds →
  map (fun j => (i, map (fun c => (c, nth j (map (feature_of c) ds) NaN)) feature_names))
    (seq 0 (length ds)) = map (pair i) ds.
Proof.
  induction 1 as [|d ds Hd _ IH]; [reflexivity|].
  cbn [length seq map]. f_equal.
  - f_equal. apply record_features. exact Hd.
  - rewrite <- seq_shift, map_map. exact IH.
Qed.

Definition exploded_part (ids : Z * list (pydict pyval)) : list (Z * pydict pyval) :=
  match snd ids with
  | [] => [(fst ids, nan_row)]
  | ds => map (pair (fst ids)) ds
  end.

Lemma explode_row_part (i : Z) (ds : list (pydict pyval)) :
  Forall is_record ds →
  explode_row (i, map (fun c => (c, cell_of ds c)) feature_names) = exploded_part (i, ds).
Proof.
  intros Hds. destruct ds as [|d ds]; [reflexivity|].
  change (exploded_part (i, d :: ds)) with (map (pair i) (d :: ds)).
  rewrite <- (transpose_columns i (d :: ds) Hds).
  unfold explode_row. cbn [fst snd]. unfold dict_values. rewrite map_map.
  cbn [feature_names map snd cell_of mylen explode_cell length].
  rewrite !length_map. reflexivity.
Qed.

Lemma counts_match_part (ds : list (pydict pyval)) :
  counts_match (map (fun c => (c, cell_of ds c)) feature_names) = true.
Proof.
  destruct ds as [|d ds]; [reflexivity|].
  unfold counts_match, dict_values. rewrite map_map, map_map.
  cbn [feature_names map snd cell_of mylen explode_cell length forallb].
  rewrite !length_map, Nat.eqb_refl. reflexivity.
Qed.

(** The records of a part that [dropna] keeps: those with a feature that is
    neither [None] nor [NaN]. *)
Definition kept (ds : list (pydict pyval)) : list (pydict pyval) :=
  List.filter (fun d => negb (all_na d)) ds.

(** The rows a part contributes to the holes table, before numbering. *)
Definition part_block (ids : Z * list (pydict pyval)) : list (Z * pydict pyval) :=
  map (pair (fst ids)) (kept (snd ids)).

(** Numbering of the rows by [reset_index]: a fresh index from 0, the former
    index label in column [part_index]. *)
Definition number_rows (l : list (Z * pydict pyval)) : list (Z * pydict pyval) :=
  imap (fun j ir => (Z.of_nat j, ("part_index", PInt (fst ir)) :: snd ir)) l.

Definition holes_columns : list string := "part_index" :: feature_names.

(** The holes table built from the records of the parts. *)
Definition holes_table (dss : list (Z * list (pydict pyval))) : DataFrame pyval :=
  mkDataFrame (Some "hole_index") holes_columns
    (number_rows (flat_map part_block dss)).

Lemma filter_map_pair (i : Z) (ds : list (pydict pyval)) :
  List.filter (fun ir : Z * pydict pyval => negb (all_na (snd ir))) (map (pair i) ds) =
  map (pair i) (kept ds).
Proof.
  unfold kept. induction ds as [|d ds IH]; [reflexivity|].
  cbn [map List.filter snd]. destruct (negb (all_na d)); cbn [map]; rewrite IH; reflexivity.
Qed.

Lemma dropna_exploded (dss : list (Z * list (pydict pyval))) :
  List.filter (fun ir => negb (all_na (snd ir))) (flat_map exploded_part dss) =
  flat_map part_block dss.
Proof.
  induction dss as [|[i ds] dss IH]; [reflexivity|].
  cbn [flat_map]. rewrite List.filter_app, IH. f_equal.
  destruct ds as [|d ds]; [reflexivity|].
  apply (filter_map_pair i (d :: ds)).
Qed.

Lemma part_block_records (dss : list (Z * list (pydict pyval))) :
  Forall (fun ids => Forall is_record (snd ids)) dss →
  Forall (fun ir => is_record (snd ir)) (flat_map part_block dss).
Proof.
  induction 1 as [|[i ds] dss Hds _ IH]; [constructor|].
  cbn [flat_map]. apply Forall_app. split; [|exact IH].
  unfold part_block, kept. cbn [fst snd].
  apply List.Forall_forall. intros [j d] Hin. apply in_map_iff in Hin.
  destruct Hin as (d' & [= <- <-] & Hin). apply filter_In in Hin.
  rewrite List.Forall_forall in Hds. apply Hds, Hin.
Qed.

Lemma flat_map_explode_rows (dss : list (Z * list (pydict pyval))) :
  Forall (fun ids => Forall is_record (snd ids)) dss →
  flat_map explode_row
    (map (fun ids => (fst ids, map (fun c => (c, cell_of (snd ids) c)) feature_names)) dss) =
  flat_map exploded_part dss.
Proof.
  induction 1 as [|[i ds] dss Hds _ IH]; [reflexivity|].
  cbn [map flat_map fst snd]. rewrite IH. f_equal.
  apply explode_row_part. exact Hds.
Qed.

Lemma apply_rows_cons {R V} (f : R → outcome V) (name : option string)
    (rows : list (Z * R)) :
  rows ≠ [] →
  apply_rows f name rows =
    (items ← mapM (fun ir => v ← f (snd ir); Ok (fst ir, v)) rows;
     Ok (mkSeries name items)).
Proof. destruct rows; [congruence | reflexivity]. Qed.

Lemma explode_features (name : option string)
    (rows : list (Z * pydict (option (list pyval)))) :
  forallb (fun ir => counts_match (snd ir)) rows = true →
  explode (mkDataFrame name feature_names rows) =
    Ok (mkDataFrame name feature_names (flat_map explode_row rows)).
Proof. intros H. unfold explode. cbn. rewrite H. reflexivity. Qed.

Lemma rename_number_rows (rows : list (Z * pydict pyval)) :
  Forall (fun ir => is_record (snd ir)) rows →
  rename_columns "index" "part_index" (mkDataFrame None holes_columns (number_rows rows)) =
    mkDataFrame None holes_columns (number_rows rows).
Proof.
  intros H. unfold rename_columns. cbn [df_index_name df_columns df_rows].
  f_equal. unfold number_rows.
  assert (G : ∀ g : nat → nat,
    map (fun ir : Z * pydict pyval =>
           (fst ir,
            map (fun kc => (if String.eqb (fst kc) "index" then "part_index" else fst kc,
                            snd kc)) (snd ir)))
      (imap (fun j ir => (Z.of_nat (g j), ("part_index", PInt (fst ir)) :: snd ir)) rows) =
    imap (fun j ir => (Z.of_nat (g j), ("part_index", PInt (fst ir)) :: snd ir)) rows).
  { induction H as [|[i d] rows Hd _ IH]; intros g; [reflexivity|].
    cbn [imap map fst snd]. f_equal.
    - cbn [snd] in Hd. destruct_record Hd. subst d. reflexivity.
    - apply (IH (fun j => g (S j))). }
  exact (G (fun j => j)).
Qed.

(** What [create_holes_df] computes on a parts table with at least one row:
    it fails with the first error of a part's extraction; it fails with the
    [ValueError] of [explode] when no part has a hole (the expanded frame then
    has no column); otherwise it returns the holes table. *)
Lemma create_holes_df_eq (read : Parts) :
  parts_rows read ≠ [] →
  create_holes_df (extract read) =
    (dss ← extracted_parts (parts_rows read);
     if no_holes dss then Raise ValueError else Ok (holes_table dss)).
Proof.
  intros Hrows. unfold create_holes_df, extract.
  cbn [parts_index_name parts_rows].
  rewrite apply_rows_cons by exact Hrows.
  rewrite apply_extract_holes.
  destruct (extracted_parts (parts_rows read)) as [dss| |] eqn:E; try reflexivity.
  cbn [mbind outcome_bind].
  assert (Hdss : dss ≠ []).
  { intros ->. apply extracted_parts_length in E.
    destruct (parts_rows read); [congruence | discriminate]. }
  pose proof (extracted_parts_records _ _ E) as Hrec.
  unfold apply_pd_Series. cbn [s_items s_index_name].
  destruct (map (fun ids => (fst ids, columns_of (snd ids))) dss) as [|it its] eqn:Eits.
  { destruct dss; [congruence | discriminate]. }
  rewrite <- Eits. clear it its Eits.
  rewrite !map_map. cbn [fst snd].
  rewrite union_keys_columns.
  destruct (no_holes dss) eqn:Hno; [reflexivity|].
  cbn [mbind outcome_bind].
  rewrite (map_ext _
    (fun ids => (fst ids, map (fun c => (c, cell_of (snd ids) c)) feature_names)))
    by (intros ids; rewrite columns_of_cells; reflexivity).
  rewrite explode_features.
  2:{ apply forallb_forall. intros ir Hin. apply in_map_iff in Hin.
      destruct Hin as (ids & <- & _). apply counts_match_part. }
  cbn [mbind outcome_bind].
  rewrite flat_map_explode_rows by exact Hrec.
  unfold dropna_all. cbn [df_index_name df_columns df_rows].
  rewrite dropna_exploded.
  change (reset_index (mkDataFrame (Some "part_index") feature_names
                         (flat_map part_block dss)))
    with (Ok (mkDataFrame None holes_columns (number_rows (flat_map part_block dss)))).
  cbn [mbind outcome_bind].
  rewrite rename_number_rows by (apply part_block_records; exact Hrec).
  reflexivity.
Qed.

Lemma create_holes_df_empty (read : Parts) :
  parts_rows read = [] → create_holes_df (extract read) = Unmodelled.
Proof. intros H. unfold create_holes_df, extract. cbn. rewrite H. reflexivity. Qed.

(** A returned holes table determines the records it was built from. *)
Lemma create_holes_df_Ok (read : Parts) (t : DataFrame pyval) :
  create_holes_df (extract read) = Ok t →
  ∃ dss, extracted_parts (parts_rows read) = Ok dss
         ∧ no_holes dss = false ∧ t = holes_table dss.
Proof.
  intros H. destruct (parts_rows read) as [|r rows] eqn:Hrows.
  - rewrite create_holes_df_empty in H by exact Hrows. discriminate.
  - rewrite create_holes_df_eq in H by (rewrite Hrows; discriminate).
    rewrite Hrows in H. inv_bind H. exists a. destruct (no_holes a); [discriminate|].
    injection H as <-. auto.
Qed.

(** ** The risk classifier *)

Lemma dict_get_set_eq {V} (d : pydict V) (k : string) (v : V) :
  dict_get (dict_set d k v) k = Some v.
Proof.
  induction d as [|[k0 v0] d IH]; cbn [dict_set dict_get].
  - rewrite String.eqb_refl. reflexivity.
  - destruct (String.eqb k0 k) eqn:E; cbn [dict_get].
    + rewrite String.eqb_refl. reflexivity.
    + rewrite E. exact IH.
Qed.

Lemma dict_get_set_ne {V} (d : pydict V) (k k' : string) (v : V) :
  String.eqb k k' = false →
  dict_get (dict_set d k v) k' = dict_get d k'.
Proof.
  intros Hne. induction d as [|[k0 v0] d IH]; cbn [dict_set dict_get].
  - rewrite Hne. reflexivity.
  - destruct (String.eqb k0 k) eqn:E; cbn [dict_get].
    + apply String.eqb_eq in E. subst k0. rewrite Hne. reflexivity.
    + destruct (String.eqb k0 k'); [reflexivity | exact IH].
Qed.

Lemma filter_dict_set {V} (d : pydict V) (k : string) (v : V) (cs : list string) :
  mem k cs = true →
  List.filter (fun kc => negb (mem (fst kc) cs)) (dict_set d k v) =
  List.filter (fun kc => negb (mem (fst kc) cs)) d.
Proof.
  intros Hk. induction d as [|[k0 v0] d IH]; cbn [dict_set List.filter fst].
  - rewrite Hk. reflexivity.
  - destruct (String.eqb k0 k) eqn:E; cbn [List.filter fst].
    + apply String.eqb_eq in E. subst k0. rewrite Hk. reflexivity.
    + rewrite IH. reflexivity.
Qed.

Lemma filter_flag_free {V} (d : pydict V) (cs : list string) :
  Forall (fun kc => mem (fst kc) cs = false) d →
  List.filter (fun kc => negb (mem (fst kc) cs)) d = d.
Proof.
  induction 1 as [|kc d Hk _ IH]; [reflexivity|].
  cbn [List.filter]. rewrite Hk, IH. reflexivity.
Qed.

Definition flag_cols : list string := [warning_col; error_col].

(** The flags of a row: what the two lambdas return on it. *)
Definition flags_of (row : pydict pyval) (w e : pyval) : Prop :=
  row_warning row = Ok w ∧ row_error row = Ok e.

Lemma row_error_set_warning (row : pydict pyval) (w : pyval) :
  row_error (dict_set row warning_col w) = row_error row.
Proof.
  unfold row_error, row_get. rewrite !dict_get_set_ne by reflexivity. reflexivity.
Qed.

(** The row of the unreachable table for a row with flags [w] and [e]. *)
Definition flag_row (w e : pyval) : pydict pyval :=
  [(warning_col, w); (error_col, e)].

Definition with_flags (row : pydict pyval) (w e : pyval) : pydict pyval :=
  dict_set (dict_set row warning_col w) error_col e.

Lemma select_flags (row : pydict pyval) (w e : pyval) :
  flat_map (fun c => match dict_get (with_flags row w e) c with
                     | Some v => [(c, v)]
                     | None => []
                     end) flag_cols = flag_row w e.
Proof.
  unfold with_flags, flag_cols. cbn [flat_map].
  rewrite dict_get_set_eq, dict_get_set_ne, dict_get_set_eq by reflexivity.
  reflexivity.
Qed.

Lemma drop_flags (row : pydict pyval) (w e : pyval) :
  List.filter (fun kc => negb (mem (fst kc) flag_cols)) (with_flags row w e) =
  List.filter (fun kc => negb (mem (fst kc) flag_cols)) row.
Proof.
  unfold with_flags. rewrite !filter_dict_set by reflexivity. reflexivity.
Qed.

(** The rows after both column assignments, row by row. *)
Lemma flagged_rows (rows : list (Z * pydict pyval)) (ws es : list (Z * pyval)) :
  mapM (fun ir => v ← row_warning (snd ir); Ok (fst ir, v)) rows = Ok ws →
  mapM (fun ir => v ← row_error (snd ir); Ok (fst ir, v))
    (zip_with (fun ir iv => (fst ir, dict_set (snd ir) warning_col (snd iv))) rows ws)
  = Ok es →
  Forall2 (fun ir r2 => ∃ w e, flags_of (snd ir) w e
                               ∧ r2 = (fst ir, with_flags (snd ir) w e))
    rows
    (zip_with (fun ir iv => (fst ir, dict_set (snd ir) error_col (snd iv)))
       (zip_with (fun ir iv => (fst ir, dict_set (snd ir) warning_col (snd iv))) rows ws)
       es).
Proof.
  revert ws es. induction rows as [|[i row] rows IH]; intros ws es Hw He.
  - constructor.
  - cbn [mapM fst snd] in Hw.
    apply bind_Ok in Hw as (iw & Hiw & Hw).
    apply bind_Ok in Hiw as (w & Hrw & Hiw). injection Hiw as <-.
    apply bind_Ok in Hw as (ws' & Hws & Hw). injection Hw as <-.
    cbn [zip_with mapM fst snd] in He. rewrite row_error_set_warning in He.
    apply bind_Ok in He as (ie & Hie & He).
    apply bind_Ok in Hie as (e & Hre & Hie). injection Hie as <-.
    apply bind_Ok in He as (es' & Hes & He). injection He as <-.
    cbn [zip_with fst snd]. constructor.
    + exists w, e. unfold flags_of. auto.
    + eapply IH; eassumption.
Qed.

Lemma apply_rows_Ok {R V} (f : R → outcome V) name (rows : list (Z * R)) s :
  apply_rows f name rows = Ok s →
  rows ≠ [] ∧ s_index_name s = name
  ∧ mapM (fun ir => v ← f (snd ir); Ok (fst ir, v)) rows = Ok (s_items s).
Proof.
  destruct rows as [|r rows]; [discriminate|]. intros H.
  rewrite apply_rows_cons in H by discriminate. inv_bind H. injection H as <-.
  auto.
Qed.

(** What a successful classification returns. *)
Lemma create_unreachable_df_Ok (t h u : DataFrame pyval) :
  create_unreachable_df t = Ok (h, u) →
  df_rows t ≠ []
  ∧ ∃ flagged,
      Forall2 (fun ir r2 => ∃ w e, flags_of (snd ir) w e
                                   ∧ r2 = (fst ir, with_flags (snd ir) w e))
        (df_rows t) flagged
      ∧ u = mkDataFrame (df_index_name t) flag_cols
              (map (fun ir =>
                      (fst ir,
                       flat_map (fun c => match dict_get (snd ir) c with
                                          | Some v => [(c, v)]
                                          | None => []
                                          end) flag_cols)) flagged)
      ∧ h = mkDataFrame (df_index_name t)
              (List.filter (fun c => negb (mem c flag_cols)) (df_columns t))
              (map (fun ir =>
                      (fst ir,
                       List.filter (fun kc => negb (mem (fst kc) flag_cols)) (snd ir)))
                 flagged).
Proof.
  unfold create_unreachable_df. intros H.
  apply bind_Ok in H as (sw & Hsw & H).
  apply apply_rows_Ok in Hsw as (Hne & _ & Hw).
  apply bind_Ok in H as (se & Hse & H).
  apply apply_rows_Ok in Hse as (_ & _ & He).
  cbn [set_column df_rows df_index_name df_columns] in He, H.
  pose proof (flagged_rows _ _ _ Hw He) as Hfl.
  split; [exact Hne|]. eexists. split; [exact Hfl|].
  apply bind_Ok in H as (u' & Hu & H).
  apply bind_Ok in H as (h' & Hh & H). injection H as <- <-.
  unfold select_columns in Hu. unfold drop_columns in Hh.
  cbn [df_rows df_index_name df_columns] in Hu, Hh.
  change [warning_col; error_col] with flag_cols in Hu, Hh.
  destruct (forallb _ flag_cols) eqn:Hsel in Hu; [|discriminate].
  injection Hu as <-.
  rewrite Hsel in Hh. injection Hh as <-.
  split; [reflexivity|]. f_equal.
  destruct (mem warning_col (df_columns t)) eqn:E1;
    destruct (mem error_col _) eqn:E2; try reflexivity;
    rewrite ?List.filter_app; cbn; rewrite ?app_nil_r; reflexivity.
Qed.

(** A frame that has neither flag column yet. *)
Definition flag_free (t : DataFrame pyval) : Prop :=
  Forall (fun c => mem c flag_cols = false) (df_columns t)
  ∧ Forall (fun ir => Forall (fun kc => mem (fst kc) flag_cols = false) (snd ir))
      (df_rows t).

Lemma classified_rows (t h u : DataFrame pyval) :
  create_unreachable_df t = Ok (h, u) →
  df_index_name u = df_index_name t
  ∧ df_columns u = flag_cols
  ∧ Forall2 (fun ir ur => ∃ w e, flags_of (snd ir) w e ∧ ur = (fst ir, flag_row w e))
      (df_rows t) (df_rows u).
Proof.
  intros H. apply create_unreachable_df_Ok in H as (_ & flagged & Hfl & -> & _).
  cbn [df_index_name df_columns df_rows]. split; [reflexivity|]. split; [reflexivity|].
  induction Hfl as [|ir r2 rows flagged (w & e & Hwe & ->) _ IH]; constructor.
  - exists w, e. split; [exact Hwe|]. cbn [map fst snd]. rewrite select_flags. reflexivity.
  - exact IH.
Qed.

Lemma classified_holes (t h u : DataFrame pyval) :
  flag_free t → create_unreachable_df t = Ok (h, u) → h = t.
Proof.
  intros [Hc Hr] H. apply create_unreachable_df_Ok in H as (_ & flagged & Hfl & _ & ->).
  destruct t as [name cols rows]. cbn [df_index_name df_columns df_rows] in *.
  f_equal.
  - clear -Hc. induction Hc as [|c cols Hcc _ IH]; [reflexivity|].
    cbn [List.filter]. rewrite Hcc, IH. reflexivity.
  - clear -Hr Hfl. induction Hfl as [|[i row] r2 rows flagged (w & e & _ & ->) _ IH].
    + reflexivity.
    + inversion Hr as [|? ? Hrow Hrows]; subst. cbn [map fst snd]. f_equal.
      * rewrite drop_flags, filter_flag_free by exact Hrow. reflexivity.
      * apply IH. exact Hrows.
Qed.


Lemma number_rows_snd (l : list (Z * pydict pyval)) :
  map snd (number_rows l) = map (fun ir => ("part_index", PInt (fst ir)) :: snd ir) l.
Proof.
  unfold number_rows.
  assert (G : ∀ (g : nat → nat),
    map snd (imap (fun j (ir : Z * pydict pyval) =>
                     (Z.of_nat (g j), ("part_index", PInt (fst ir)) :: snd ir)) l) =
    map (fun ir => ("part_index", PInt (fst ir)) :: snd ir) l).
  { induction l as [|ir l IH]; intros g; [reflexivity|].
    cbn [imap map snd]. f_equal. apply (IH (fun j => g (S j))). }
  exact (G (fun j => j)).
Qed.

Lemma number_rows_length (l : list (Z * pydict pyval)) :
  length (number_rows l) = length l.
Proof. apply length_imap. Qed.

Lemma holes_table_flag_free (dss : list (Z * list (pydict pyval))) :
  Forall (fun ids => Forall is_record (snd ids)) dss →
  flag_free (holes_table dss).
Proof.
  intros Hrec. split.
  - cbn [holes_table df_columns]. unfold holes_columns, feature_names.
    repeat constructor.
  - cbn [holes_table df_rows].
    apply part_block_records in Hrec. revert Hrec.
    generalize (flat_map part_block dss). intros l Hl.
    apply List.Forall_forall. intros [j row] Hin.
    assert (Hs : In row (map snd (number_rows l))).
    { apply in_map_iff. exists (j, row). auto. }
    rewrite number_rows_snd in Hs. apply in_map_iff in Hs.
    destruct Hs as ([i d] & <- & Hid).
    rewrite List.Forall_forall in Hl. specialize (Hl _ Hid).
    cbn [fst snd] in *. destruct_record Hl. subst d.
    unfold hole_record, feature_names. cbn [combine]. repeat constructor.
Qed.

(** What a successful transform returns: the holes table of the parts'
    records, untouched by the classifier, and its table of flags. *)
Lemma transform_Ok (read : Parts) (h u : DataFrame pyval) :
  transform (extract read) = Ok (h, u) →
  ∃ dss, extracted_parts (parts_rows read) = Ok dss
         ∧ no_holes dss = false
         ∧ h = holes_table dss
         ∧ create_holes_df (extract read) = Ok h
         ∧ create_unreachable_df h = Ok (h, u).
Proof.
  unfold transform. intros H. apply bind_Ok in H as (t & Ht & H).
  destruct (create_holes_df_Ok _ _ Ht) as (dss & Hdss & Hno & ->).
  pose proof (classified_holes _ _ _
                (holes_table_flag_free _ (extracted_parts_records _ _ Hdss)) H) as ->.
  exists dss. auto.
Qed.

(** ** Thresholds *)

Lemma float_of_int_2 : float_of_int 2 = Ok 2%float.
Proof. reflexivity. Qed.

Lemma float_of_int_10 : float_of_int 10 = Ok 10%float.
Proof. reflexivity. Qed.

Lemma float_of_int_40 : float_of_int 40 = Ok 40%float.
Proof. reflexivity. Qed.

Lemma has_warning_int (l r : Z) :
  has_warning (PInt l) (PInt r) = Ok (Z.gtb l (r * 2 * 10)).
Proof. reflexivity. Qed.

Lemma has_error_int (l r : Z) :
  has_error (PInt l) (PInt r) = Ok (Z.gtb l (r * 2 * 40)).
Proof. reflexivity. Qed.

Lemma has_warning_float (l r : float) :
  has_warning (PFloat l) (PFloat r) = Ok (PrimFloat.ltb (r * 2 * 10)%float l).
Proof.
  unfold has_warning. cbn [py_mul_int]. rewrite float_of_int_2. cbn [mbind outcome_bind].
  cbn [py_mul_int]. rewrite float_of_int_10. reflexivity.
Qed.

Lemma has_error_float (l r : float) :
  has_error (PFloat l) (PFloat r) = Ok (PrimFloat.ltb (r * 2 * 40)%float l).
Proof.
  unfold has_error. cbn [py_mul_int]. rewrite float_of_int_2. cbn [mbind outcome_bind].
  cbn [py_mul_int]. rewrite float_of_int_40. reflexivity.
Qed.





Lemma flags_of_inv (row : pydict pyval) (w e : pyval) :
  flags_of row w e →
  ∃ length radius bw be,
    dict_get row "length" = Some length ∧ dict_get row "radius" = Some radius
    ∧ has_warning length radius = Ok bw ∧ has_error length radius = Ok be
    ∧ w = PBool bw ∧ e = PBool be.
Proof.
  unfold flags_of, row_warning, row_error, row_get. intros [Hw He].
  destruct (dict_get row "length") as [length|]; [|discriminate].
  destruct (dict_get row "radius") as [radius|]; [|discriminate].
  cbn [mbind outcome_bind] in Hw, He.
  apply bind_Ok in Hw as (bw & Hbw & Hw). injection Hw as <-.
  apply bind_Ok in He as (be & Hbe & He). injection He as <-.
  exists length, radius, bw, be. auto 10.
Qed.

(** C3.  The warning flag of a pair of integers is [length > radius*2*10] and
    the error flag [length > radius*2*40]; likewise for a pair of floats in
    binary64 arithmetic; [length=100, radius=4] gives a warning and no error,
    [length=500, radius=4] gives both; and in every classified table the
    flags of a row are [has_warning] and [has_error] of that row's [length]
    and [radius]. *)
Theorem unreachable_flags_threshold :
  (∀ l r : Z,
     has_warning (PInt l) (PInt r) = Ok (Z.gtb l (r * 2 * 10))
     ∧ has_error (PInt l) (PInt r) = Ok (Z.gtb l (r * 2 * 40))
     ∧ (Z.gtb l (r * 2 * 10) = true ↔ (l > r * 2 * 10)%Z)
     ∧ (Z.gtb l (r * 2 * 40) = true ↔ (l > r * 2 * 40)%Z))
  ∧ (∀ l r : float,
       has_warning (PFloat l) (PFloat r) = Ok (PrimFloat.ltb (r * 2 * 10)%float l)
       ∧ has_error (PFloat l) (PFloat r) = Ok (PrimFloat.ltb (r * 2 * 40)%float l))
  ∧ (has_warning (PInt 100) (PInt 4) = Ok true
     ∧ has_error (PInt 100) (PInt 4) = Ok false)
  ∧ (has_warning (PInt 500) (PInt 4) = Ok true
     ∧ has_error (PInt 500) (PInt 4) = Ok true)
  ∧ (∀ t h u : DataFrame pyval,
       create_unreachable_df t = Ok (h, u) →
       Forall2 (fun hr ur =>
                  ∃ length radius bw be,
                    dict_get (snd hr) "length" = Some length
                    ∧ dict_get (snd hr) "radius" = Some radius
                    ∧ has_warning length radius = Ok bw
                    ∧ has_error length radius = Ok be
                    ∧ dict_get (snd ur) warning_col = Some (PBool bw)
                    ∧ dict_get (snd ur) error_col = Some (PBool be))
         (df_rows t) (df_rows u)).
Proof.
  split; [|split; [|split; [|split]]].
  - intros l r. split; [apply has_warning_int|]. split; [apply has_error_int|].
    split; apply Z.gtb_gt.
  - intros l r. split; [apply has_warning_float | apply has_error_float].
  - split; reflexivity.
  - split; reflexivity.
  - intros t h u H. apply classified_rows in H as (_ & _ & H).
    induction H as [|hr ur rows urows (w & e & Hwe & ->) _ IH]; constructor; [|exact IH].
    apply flags_of_inv in Hwe as (length & radius & bw & be & Hl & Hr & Hw & He & -> & ->).
    exists length, radius, bw, be. repeat (split; [assumption|]).
    split; reflexivity.
Qed.

Lemma unreachable_flags_threshold_witness :
  ∃ h u, transform (extract sample_parts) = Ok (h, u)
         ∧ Forall2 (fun hr ur =>
                      ∃ length radius bw be,
                        dict_get (snd hr) "length" = Some length
                        ∧ dict_get (snd hr) "radius" = Some radius
                        ∧ has_warning length radius = Ok bw
                        ∧ has_error length radius = Ok be
                        ∧ dict_get (snd ur) warning_col = Some (PBool bw)
                        ∧ dict_get (snd ur) error_col = Some (PBool be))
              (df_rows h) (df_rows u).
Proof.
  eexists _, _. split; [vm_compute; reflexivity|].
  eapply (proj2 (proj2 (proj2 (proj2 unreachable_flags_threshold)))).
  vm_compute. reflexivity.
Defined.

(** ** Positional correspondence and the frame of the classifier *)

(** C4.  After a transform that returns, the unreachable table has as many
    rows as the holes table, under the same index in the same order, and its
    row [i] holds the flags computed from row [i] of the holes table. *)
Theorem tables_aligned (read : Parts) (h u : DataFrame pyval) :
  transform (extract read) = Ok (h, u) →
  length (df_rows u) = length (df_rows h)
  ∧ map fst (df_rows u) = map fst (df_rows h)
  ∧ df_index_name u = df_index_name h
  ∧ ∀ (i : nat) (hr : Z * pydict pyval),
      df_rows h !! i = Some hr →
      ∃ w e, row_warning (snd hr) = Ok w ∧ row_error (snd hr) = Ok e
             ∧ df_rows u !! i = Some (fst hr, flag_row w e).
Proof.
  intros H. destruct (transform_Ok _ _ _ H) as (dss & _ & _ & _ & _ & Hc).
  apply classified_rows in Hc as (Hname & _ & Hrows).
  split; [symmetry; eapply Forall2_length; exact Hrows|].
  split; [|split; [exact Hname|]].
  - clear -Hrows. induction Hrows as [|hr ur hs us (w & e & _ & ->) _ IH];
      [reflexivity | cbn [map fst]; rewrite IH; reflexivity].
  - intros i hr Hi.
    destruct (Forall2_lookup_l _ _ _ _ _ Hrows Hi) as (ur & Hu & w & e & [Hw He] & ->).
    exists w, e. auto.
Qed.

Lemma tables_aligned_witness :
  ∃ h u, transform (extract sample_parts) = Ok (h, u)
         ∧ length (df_rows u) = length (df_rows h)
         ∧ map fst (df_rows u) = map fst (df_rows h)
         ∧ df_index_name u = df_index_name h
         ∧ ∀ (i : nat) (hr : Z * pydict pyval),
             df_rows h !! i = Some hr →
             ∃ w e, row_warning (snd hr) = Ok w ∧ row_error (snd hr) = Ok e
                    ∧ df_rows u !! i = Some (fst hr, flag_row w e).
Proof.
  eexists _, _. split; [vm_compute; reflexivity|].
  apply (tables_aligned sample_parts). vm_compute. reflexivity.
Defined.

Lemma holes_table_row_keys (dss : list (Z * list (pydict pyval))) :
  Forall (fun ids => Forall is_record (snd ids)) dss →
  Forall (fun hr => dict_keys (snd hr) = holes_columns) (df_rows (holes_table dss)).
Proof.
  intros Hrec. cbn [holes_table df_rows].
  apply part_block_records in Hrec. revert Hrec.
  generalize (flat_map part_block dss). intros l Hl.
  apply List.Forall_forall. intros [j row] Hin.
  assert (Hs : In row (map snd (number_rows l))).
  { apply in_map_iff. exists (j, row). auto. }
  rewrite number_rows_snd in Hs. apply in_map_iff in Hs.
  destruct Hs as ([i d] & <- & Hid).
  rewrite List.Forall_forall in Hl. specialize (Hl _ Hid).
  cbn [fst snd] in *. destruct_record Hl. subst d. reflexivity.
Qed.

(** C8.  The holes table a transform returns is the table [create_holes_df]
    built, unchanged by the classifier: it is indexed by [hole_index], its
    columns are [part_index] and the thirteen features, every row holds
    exactly these, and neither flag column is among them. *)
Theorem classifier_leaves_holes_table (read : Parts) (h u : DataFrame pyval) :
  transform (extract read) = Ok (h, u) →
  create_holes_df (extract read) = Ok h
  ∧ df_index_name h = Some "hole_index"
  ∧ df_columns h = "part_index" :: feature_names
  ∧ mem warning_col (df_columns h) = false
  ∧ mem error_col (df_columns h) = false
  ∧ Forall (fun hr => dict_keys (snd hr) = "part_index" :: feature_names) (df_rows h).
Proof.
  intros H. destruct (transform_Ok _ _ _ H) as (dss & Hdss & _ & -> & Hc & _).
  split; [exact Hc|]. do 4 (split; [reflexivity|]).
  apply holes_table_row_keys. eapply extracted_parts_records. exact Hdss.
Qed.

Lemma classifier_leaves_holes_table_witness :
  ∃ h u, transform (extract sample_parts) = Ok (h, u)
         ∧ create_holes_df (extract sample_parts) = Ok h
         ∧ df_index_name h = Some "hole_index"
         ∧ df_columns h = "part_index" :: feature_names
         ∧ mem warning_col (df_columns h) = false
         ∧ mem error_col (df_columns h) = false
         ∧ Forall (fun hr => dict_keys (snd hr) = "part_index" :: feature_names)
             (df_rows h).
Proof.
  eexists _, _. split; [vm_compute; reflexivity|].
  eapply (classifier_leaves_holes_table sample_parts). vm_compute. reflexivity.
Defined.

(** ** Null operands *)


Lemma Forall_Ok_Forall2 {A B} (f : A → outcome B) (l : list A) :
  Forall (fun x => ∃ y, f x = Ok y) l → ∃ k, Forall2 (fun x y => f x = Ok y) l k.
Proof.
  induction 1 as [|x l [y Hy] _ [k IH]].
  - exists []. constructor.
  - exists (y :: k). constructor; assumption.
Qed.






(** ** Malformed JSON *)

Lemma extract_hole_modelled (hole : pyval) : extract_hole hole ≠ Unmodelled.
Proof.
  destruct hole; try (unfold extract_hole; rewrite extract_feature_not_dict;
                      [discriminate | discriminate]).
  rewrite extract_hole_total. destruct (groups_ok m); discriminate.
Qed.

Lemma mapM_modelled {A B} (f : A → outcome B) (l : list A) :
  (∀ x, f x ≠ Unmodelled) → mapM f l ≠ Unmodelled.
Proof.
  intros Hf. induction l as [|x l IH]; [discriminate|].
  cbn [mapM]. specialize (Hf x). destruct (f x); try congruence; [|discriminate].
  cbn [mbind outcome_bind]. destruct (mapM f l); try congruence; discriminate.
Qed.

Lemma extract_holes_modelled (holes : holes_field) : extract_holes holes ≠ Unmodelled.
Proof.
  rewrite extract_holes_columns. unfold part_holes.
  destruct holes as [|v|s]; try discriminate.
  cbn [descriptors]. destruct v; try discriminate; cbn [py_iter mbind outcome_bind];
    match goal with
    | |- context [mapM extract_hole ?l] =>
        pose proof (mapM_modelled extract_hole l extract_hole_modelled);
        destruct (mapM extract_hole l); try congruence; discriminate
    end.
Qed.

Lemma mapM_some_Raise {A B} (f : A → outcome B) (l : list A) (x : A) (e0 : exn) :
  (∀ y, f y ≠ Unmodelled) → In x l → f x = Raise e0 → ∃ e, mapM f l = Raise e.
Proof.
  intros Hf Hin Hx. induction l as [|a l IH]; [destruct Hin|].
  cbn [mapM]. destruct (f a) as [b|e|] eqn:Ea.
  - destruct Hin as [->|Hin]; [congruence|].
    destruct (IH Hin) as [e He]. exists e. cbn [mbind outcome_bind]. rewrite He. reflexivity.
  - exists e. reflexivity.
  - destruct (Hf a Ea).
Qed.

Lemma create_holes_df_Raise (read : Parts) (e : exn) :
  mapM (fun ir => v ← extract_holes (snd ir); Ok (fst ir, v)) (parts_rows read) = Raise e →
  create_holes_df (extract read) = Raise e.
Proof.
  intros H. unfold create_holes_df, extract. cbn [parts_index_name parts_rows].
  rewrite apply_rows_cons by (intros E; rewrite E in H; discriminate).
  rewrite H. reflexivity.
Qed.

(** C6.  A part whose [holes] string [json.loads] rejects makes its
    extraction raise [JSONDecodeError]; the transform of a table that holds
    such a part raises instead of returning tables, and the error it raises is
    that [JSONDecodeError] when the parts before it extract without error. *)
Theorem malformed_holes_abort (read : Parts) (pre post : list (Z * holes_field))
    (i : Z) (s : string) :
  parts_rows read = (pre ++ (i, HInvalid s) :: post)%list →
  extract_holes (HInvalid s) = Raise JSONDecodeError
  ∧ (∃ e, transform (extract read) = Raise e)
  ∧ (Forall (fun ir => ∃ dout, extract_holes (snd ir) = Ok dout) pre →
     transform (extract read) = Raise JSONDecodeError).
Proof.
  intros Hrows. split; [reflexivity|]. split.
  - destruct (mapM_some_Raise
                (fun ir : Z * holes_field => v ← extract_holes (snd ir); Ok (fst ir, v))
                (parts_rows read) (i, HInvalid s) JSONDecodeError) as [e He].
    + intros [j f] H. cbn [snd] in H. pose proof (extract_holes_modelled f).
      destruct (extract_holes f); [discriminate | discriminate | congruence].
    + rewrite Hrows. apply in_or_app. right. left. reflexivity.
    + reflexivity.
    + exists e. unfold transform. rewrite (create_holes_df_Raise read e He). reflexivity.
  - intros Hpre. unfold transform.
    rewrite (create_holes_df_Raise read JSONDecodeError); [reflexivity|].
    rewrite Hrows.
    assert (Hp : Forall (fun ir : Z * holes_field =>
                           ∃ y, (v ← extract_holes (snd ir); Ok (fst ir, v)) = Ok y) pre).
    { eapply Forall_impl; [exact Hpre|]. intros ir [w Hw]. rewrite Hw. eexists. reflexivity. }
    apply Forall_Ok_Forall2 in Hp as [ys Hys].
    apply (mapM_first_Raise _ pre post (i, HInvalid s) ys JSONDecodeError Hys).
    reflexivity.
Qed.

Definition sample_malformed_parts : Parts :=
  mkParts None [ (0, HJson (PList [hole_100_4])); (1, HInvalid "[{") ; (2, HNull) ].

Lemma malformed_holes_abort_witness :
  extract_holes (HInvalid "[{") = Raise JSONDecodeError
  ∧ (∃ e, transform (extract sample_malformed_parts) = Raise e)
  ∧ transform (extract sample_malformed_parts) = Raise JSONDecodeError.
Proof.
  pose proof (malformed_holes_abort sample_malformed_parts
                [(0, HJson (PList [hole_100_4]))] [(2, HNull)] 1 "[{" eq_refl)
    as (H1 & H2 & H3).
  split; [exact H1|]. split; [exact H2|]. apply H3.
  constructor; [|constructor]. eexists. vm_compute. reflexivity.
Defined.

(** ** Rows per part *)

(** The rows of a table whose [part_index] is [i]. *)
Definition part_index_is (i : Z) (hr : Z * pydict pyval) : bool :=
  match dict_get (snd hr) "part_index" with
  | Some (PInt z) => Z.eqb z i
  | _ => false
  end.

Definition rows_of_part (i : Z) (t : DataFrame pyval) : list (Z * pydict pyval) :=
  List.filter (part_index_is i) (df_rows t).

(** The rows of the unreachable table [u] that stand at the positions of the
    rows of part [i] in the holes table [h]. *)
Definition flags_of_part (i : Z) (h u : DataFrame pyval) : list (Z * pydict pyval) :=
  map snd (List.filter (fun p => part_index_is i (fst p)) (combine (df_rows h) (df_rows u))).

Lemma part_index_is_numbered (i j : Z) (ir : Z * pydict pyval) :
  part_index_is i (j, ("part_index", PInt (fst ir)) :: snd ir) = Z.eqb (fst ir) i.
Proof. reflexivity. Qed.

Lemma length_filter_number_rows (i : Z) (l : list (Z * pydict pyval)) :
  length (List.filter (part_index_is i) (number_rows l)) =
  length (List.filter (fun ir => Z.eqb (fst ir) i) l).
Proof.
  unfold number_rows.
  assert (G : ∀ (g : nat → nat),
    length (List.filter (part_index_is i)
              (imap (fun j (ir : Z * pydict pyval) =>
                       (Z.of_nat (g j), ("part_index", PInt (fst ir)) :: snd ir)) l)) =
    length (List.filter (fun ir => Z.eqb (fst ir) i) l)).
  { induction l as [|ir l IH]; intros g; [reflexivity|].
    cbn [imap List.filter]. rewrite part_index_is_numbered.
    destruct (Z.eqb (fst ir) i); cbn [length]; [f_equal|];
      apply (IH (fun j => g (S j))). }
  exact (G (fun j => j)).
Qed.

Lemma filter_label_block_same (i : Z) (ds : list (pydict pyval)) :
  List.filter (fun ir : Z * pydict pyval => Z.eqb (fst ir) i) (part_block (i, ds)) =
  part_block (i, ds).
Proof.
  unfold part_block. cbn [fst snd]. induction (kept ds) as [|d l IH]; [reflexivity|].
  cbn [map List.filter fst]. rewrite Z.eqb_refl, IH. reflexivity.
Qed.

Lemma filter_label_block_other (i j : Z) (ds : list (pydict pyval)) :
  j ≠ i →
  List.filter (fun ir : Z * pydict pyval => Z.eqb (fst ir) i) (part_block (j, ds)) = [].
Proof.
  intros Hne. unfold part_block. cbn [fst snd].
  induction (kept ds) as [|d l IH]; [reflexivity|].
  cbn [map List.filter fst]. destruct (Z.eqb_spec j i); [contradiction | exact IH].
Qed.

Lemma filter_label_absent (i : Z) (dss : list (Z * list (pydict pyval))) :
  ¬ In i (map fst dss) →
  List.filter (fun ir : Z * pydict pyval => Z.eqb (fst ir) i) (flat_map part_block dss) = [].
Proof.
  induction dss as [|[j ds] dss IH]; intros Hni; [reflexivity|].
  cbn [flat_map]. rewrite List.filter_app.
  rewrite filter_label_block_other by (intros ->; apply Hni; left; reflexivity).
  apply IH. intros Hin. apply Hni. right. exact Hin.
Qed.

Lemma filter_label_blocks (i : Z) (ds : list (pydict pyval))
    (dss : list (Z * list (pydict pyval))) :
  List.NoDup (map fst dss) → In (i, ds) dss →
  List.filter (fun ir : Z * pydict pyval => Z.eqb (fst ir) i) (flat_map part_block dss) =
  part_block (i, ds).
Proof.
  induction dss as [|[j ds'] dss IH]; intros Hnd Hin; [destruct Hin|].
  cbn [map fst] in Hnd. inversion Hnd as [|? ? Hj Hnd']; subst.
  cbn [flat_map]. rewrite List.filter_app. destruct Hin as [[= -> ->]|Hin].
  - rewrite filter_label_block_same, filter_label_absent by exact Hj.
    apply app_nil_r.
  - assert (j ≠ i).
    { intros ->. apply Hj. apply in_map_iff. exists (i, ds). auto. }
    rewrite filter_label_block_other by assumption. apply IH; assumption.
Qed.

Lemma extracted_parts_labels rows dss :
  extracted_parts rows = Ok dss → map fst dss = map fst rows.
Proof.
  rewrite extracted_parts_Forall2.
  induction 1 as [|ir ids rows dss [H _] _ IH]; [reflexivity|].
  cbn [map]. rewrite H, IH. reflexivity.
Qed.

Lemma extracted_parts_In rows dss (i : Z) (f : holes_field) :
  extracted_parts rows = Ok dss → In (i, f) rows →
  ∃ ds, part_holes f = Ok ds ∧ In (i, ds) dss.
Proof.
  rewrite extracted_parts_Forall2.
  induction 1 as [|ir [j ds] rows dss [H1 H2] _ IH]; intros Hin; [destruct Hin|].
  destruct Hin as [->|Hin].
  - cbn [fst snd] in *. subst j. exists ds. split; [exact H2 | left; reflexivity].
  - destruct (IH Hin) as (ds' & Hds' & Hin'). exists ds'. split; [exact Hds' | right; exact Hin'].
Qed.

Lemma part_holes_Ok (f : holes_field) (ds : list (pydict pyval)) :
  part_holes f = Ok ds ↔
  ∃ hs, descriptors f = Ok hs ∧ Forall2 (fun hole d => extract_hole hole = Ok d) hs ds.
Proof.
  unfold part_holes. rewrite bind_Ok. split; intros (hs & H1 & H2); exists hs;
    (split; [exact H1 | apply mapM_Ok_Forall2; exact H2]).
Qed.

(** The number of rows of part [i] in a returned holes table. *)
Lemma rows_of_part_count (read : Parts) (h u : DataFrame pyval) (i : Z)
    (f : holes_field) :
  transform (extract read) = Ok (h, u) →
  List.NoDup (map fst (parts_rows read)) →
  In (i, f) (parts_rows read) →
  ∃ ds, part_holes f = Ok ds ∧ length (rows_of_part i h) = length (kept ds).
Proof.
  intros H Hnd Hin.
  destruct (transform_Ok _ _ _ H) as (dss & Hdss & _ & -> & _ & _).
  destruct (extracted_parts_In _ _ _ _ Hdss Hin) as (ds & Hds & Hin').
  exists ds. split; [exact Hds|].
  unfold rows_of_part. cbn [holes_table df_rows].
  rewrite length_filter_number_rows.
  rewrite (filter_label_blocks i ds dss); [|rewrite (extracted_parts_labels _ _ Hdss); exact Hnd|exact Hin'].
  unfold part_block. apply length_map.
Qed.





Lemma flags_of_part_nil (i : Z) (h u : DataFrame pyval) :
  rows_of_part i h = [] → flags_of_part i h u = [].
Proof.
  unfold rows_of_part, flags_of_part. generalize (df_rows u) as k.
  induction (df_rows h) as [|hr l IH]; intros k H; [reflexivity|].
  cbn [List.filter] in H. destruct (part_index_is i hr) eqn:E; [discriminate|].
  destruct k as [|ur k]; [reflexivity|].
  cbn [combine List.filter fst]. rewrite E. apply IH. exact H.
Qed.

(** C5 (as amended).  For a part whose [holes] is null or ["[]"], per-part
    extraction returns the empty mapping and raises nothing; and in a
    transform that returns, over parts with distinct index labels, no row of
    the holes table carries the part's index and no row of the unreachable
    table stands at the position of such a row. *)
Theorem no_hole_parts_excluded :
  extract_holes HNull = Ok []
  ∧ extract_holes (HJson (PList [])) = Ok []
  ∧ ∀ (read : Parts) (h u : DataFrame pyval) (i : Z) (f : holes_field),
      transform (extract read) = Ok (h, u) →
      List.NoDup (map fst (parts_rows read)) →
      In (i, f) (parts_rows read) →
      f = HNull ∨ f = HJson (PList []) →
      rows_of_part i h = [] ∧ flags_of_part i h u = []
      ∧ length (df_rows u) = length (df_rows h).
Proof.
  split; [reflexivity|]. split; [reflexivity|].
  intros read h u i f H Hnd Hin Hf.
  destruct (rows_of_part_count read h u i f H Hnd Hin) as (ds & Hds & Hlen).
  assert (ds = []) as ->.
  { destruct Hf as [-> | ->]; injection Hds as <-; reflexivity. }
  assert (Hnil : rows_of_part i h = []) by (destruct (rows_of_part i h); [reflexivity | discriminate]).
  split; [exact Hnil|]. split; [apply flags_of_part_nil; exact Hnil|].
  destruct (transform_Ok _ _ _ H) as (dss & _ & _ & _ & _ & Hc).
  apply classified_rows in Hc as (_ & _ & Hrows).
  symmetry. eapply Forall2_length. exact Hrows.
Qed.

Lemma no_hole_parts_excluded_witness :
  ∃ h u, transform (extract sample_parts) = Ok (h, u)
         ∧ rows_of_part 1 h = [] ∧ flags_of_part 1 h u = []
         ∧ length (df_rows u) = length (df_rows h).
Proof.
  eexists _, _. split; [vm_compute; reflexivity|].
  eapply (proj2 (proj2 no_hole_parts_excluded) sample_parts _ _ 1 HNull).
  - vm_compute. reflexivity.
  - cbn. repeat constructor; cbn; intuition discriminate.
  - cbn. right. left. reflexivity.
  - left. reflexivity.
Defined.

(** A part whose [holes] is the empty string, which [json.loads] rejects. *)
Definition sample_empty_string_parts : Parts :=
  mkParts None
    [ (0, HJson (PList [hole_100_4]));
      (1, HInvalid "") ].

(** C5 as stated fails: the empty string is an empty, non-null [holes]
    field, and processing it raises. *)
Lemma empty_string_holes_raises :
  isnull_field (HInvalid "") = false
  ∧ extract_holes (HInvalid "") = Raise JSONDecodeError
  ∧ transform (extract sample_empty_string_parts) = Raise JSONDecodeError.
Proof. split; [reflexivity|]. split; [reflexivity|]. vm_compute. reflexivity. Qed.

(** ** Linkage *)




(** * Further properties of the extraction functions *)

(** The value of [hole[g][s]] as [extract_hole_feature] reads it from a
    descriptor whose group [g] is absent or an object. *)
Definition group_value (m : gmap string pyval) (g s : string) : pyval :=
  match m !! g with
  | Some (PDict m') => default PNone (m' !! s)
  | _ => PNone
  end.

Lemma extract_feature_sub_value (m : gmap string pyval) (g s : string) :
  match extract_hole_feature (PDict m) g (Some s) with
  | Ok v => v
  | _ => PNone
  end = group_value m g s.
Proof.
  rewrite extract_feature_sub. unfold group_value.
  destruct (m !! g) as [[]|]; reflexivity.
Qed.

(** X1.  When [extract_hole] returns on a descriptor object, each of the
    thirteen keys holds the value found at its path in the descriptor
    ([center_x] is [hole['center']['x']], ..., [radius] is [hole['radius']]),
    and null where the path is absent. *)
Theorem extract_hole_values (m : gmap string pyval) (d : pydict pyval) :
  extract_hole (PDict m) = Ok d →
  d = [ ("center_x", group_value m "center" "x");
        ("center_y", group_value m "center" "y");
        ("center_z", group_value m "center" "z");
        ("direction_x", group_value m "direction" "x");
        ("direction_y", group_value m "direction" "y");
        ("direction_z", group_value m "direction" "z");
        ("end1_closed", group_value m "end1" "closed");
        ("end1_reachable", group_value m "end1" "reachable");
        ("end2_closed", group_value m "end2" "closed");
        ("end2_reachable", group_value m "end2" "reachable");
        ("facet_count", default PNone (m !! "facet_count"));
        ("length", default PNone (m !! "length"));
        ("radius", default PNone (m !! "radius")) ].
Proof.
  rewrite extract_hole_total. destruct (groups_ok m); [|discriminate].
  intros [= <-]. cbn [map fst snd]. rewrite !extract_feature_sub_value.
  rewrite !extract_feature_top. reflexivity.
Qed.

Definition hole_full : gmap string pyval :=
  {[ "center" := PDict {[ "x" := PFloat 1.5; "y" := PInt 0; "z" := PInt 2 ]};
     "end1" := PDict {[ "closed" := PBool true ]};
     "length" := PInt 500; "radius" := PInt 4 ]}.

Lemma extract_hole_values_witness :
  extract_hole (PDict hole_full) =
    Ok [ ("center_x", PFloat 1.5); ("center_y", PInt 0); ("center_z", PInt 2);
         ("direction_x", PNone); ("direction_y", PNone); ("direction_z", PNone);
         ("end1_closed", PBool true); ("end1_reachable", PNone);
         ("end2_closed", PNone); ("end2_reachable", PNone);
         ("facet_count", PNone); ("length", PInt 500); ("radius", PInt 4) ].
Proof.
  destruct (extract_hole (PDict hole_full)) as [d| |] eqn:E;
    [|vm_compute in E; discriminate|vm_compute in E; discriminate].
  rewrite (extract_hole_values hole_full d E). reflexivity.
Defined.

Lemma dict_get_map_keys {V} (F : string → V) (l : list string) (k : string) (v : V) :
  dict_get (map (fun c => (c, F c)) l) k = Some v → v = F k ∧ In k l.
Proof.
  induction l as [|c l IH]; [discriminate|].
  cbn [map dict_get]. destruct (String.eqb c k) eqn:E.
  - apply String.eqb_eq in E. subst c. intros [= <-]. split; [reflexivity | left; reflexivity].
  - intros H. destruct (IH H) as [Hv Hin]. split; [exact Hv | right; exact Hin].
Qed.

(** X2.  [extract_holes] returns the empty dict for a part without
    descriptors; otherwise it returns a dict with exactly the thirteen feature
    keys, in order, whose list under a key has one entry per descriptor, in
    array order: the value of that key in the descriptor's record. *)
Theorem extract_holes_columnar (holes : holes_field) (dout : pydict (list pyval)) :
  extract_holes holes = Ok dout →
  ∃ hs ds,
    descriptors holes = Ok hs
    ∧ Forall2 (fun hole d => extract_hole hole = Ok d) hs ds
    ∧ (hs = [] → dout = [])
    ∧ (hs ≠ [] →
       dict_keys dout = feature_names
       ∧ ∀ k col, dict_get dout k = Some col →
           length col = length hs
           ∧ col = map (fun d => default PNone (dict_get d k)) ds).
Proof.
  rewrite extract_holes_columns. intros H.
  apply bind_Ok in H as (ds & Hds & H). injection H as <-.
  pose proof Hds as Hds'. apply part_holes_Ok in Hds' as (hs & Hhs & Hext).
  exists hs, ds. split; [exact Hhs|]. split; [exact Hext|]. split.
  - intros ->. inversion Hext. reflexivity.
  - intros Hne. destruct ds as [|d ds]; [inversion Hext; congruence|].
    split; [reflexivity|]. intros k col Hk.
    unfold columns_of in Hk. apply dict_get_map_keys in Hk as [-> _].
    split; [|reflexivity]. rewrite length_map.
    symmetry. eapply Forall2_length. exact Hext.
Qed.

Lemma extract_holes_columnar_witness :
  ∃ dout, extract_holes (HJson (PList [hole_100_4; hole_500_4])) = Ok dout
    ∧ ∃ hs ds,
        descriptors (HJson (PList [hole_100_4; hole_500_4])) = Ok hs
        ∧ Forall2 (fun hole d => extract_hole hole = Ok d) hs ds
        ∧ (hs = [] → dout = [])
        ∧ (hs ≠ [] →
           dict_keys dout = feature_names
           ∧ ∀ k col, dict_get dout k = Some col →
               length col = length hs
               ∧ col = map (fun d => default PNone (dict_get d k)) ds).
Proof.
  eexists. split; [vm_compute; reflexivity|].
  apply (extract_holes_columnar (HJson (PList [hole_100_4; hole_500_4]))).
  vm_compute. reflexivity.
Defined.

(** * Further properties of the transform *)

Lemma part_holes_no_descriptors (f : holes_field) :
  descriptors f = Ok [] → part_holes f = Ok [].
Proof. unfold part_holes. intros ->. reflexivity. Qed.

Lemma extracted_parts_no_descriptors (rows : list (Z * holes_field)) :
  Forall (fun ir => descriptors (snd ir) = Ok []) rows →
  extracted_parts rows = Ok (map (fun ir => (fst ir, [])) rows).
Proof.
  unfold extracted_parts. induction 1 as [|[i f] rows Hf _ IH]; [reflexivity|].
  cbn [mapM map fst snd]. cbn [snd] in Hf.
  rewrite (part_holes_no_descriptors f Hf).
  cbn [mbind outcome_bind]. rewrite IH. reflexivity.
Qed.

Lemma no_holes_all_nil (rows : list (Z * holes_field)) :
  no_holes (map (fun ir => (fst ir, [])) rows) = true.
Proof. induction rows as [|ir rows IH]; [reflexivity | exact IH]. Qed.

(** X3.  When the parts table has rows but no part has a descriptor (every
    [holes] is null, ["[]"], ...), the expanded frame has no column and
    [explode] is called with an empty column list: [create_holes_df], and with
    it the transform, raises [ValueError] instead of returning empty tables. *)
Theorem hole_less_table_raises (read : Parts) :
  parts_rows read ≠ [] →
  Forall (fun ir => descriptors (snd ir) = Ok []) (parts_rows read) →
  create_holes_df (extract read) = Raise ValueError
  ∧ transform (extract read) = Raise ValueError.
Proof.
  intros Hne Hall.
  assert (H : create_holes_df (extract read) = Raise ValueError).
  { rewrite create_holes_df_eq by exact Hne.
    rewrite (extracted_parts_no_descriptors _ Hall). cbn [mbind outcome_bind].
    rewrite no_holes_all_nil. reflexivity. }
  split; [exact H|]. unfold transform. rewrite H. reflexivity.
Qed.

Definition sample_hole_less_parts : Parts :=
  mkParts None [ (0, HNull); (1, HJson (PList [])); (2, HNull) ].

Lemma hole_less_table_raises_witness :
  create_holes_df (extract sample_hole_less_parts) = Raise ValueError
  ∧ transform (extract sample_hole_less_parts) = Raise ValueError.
Proof.
  apply (hole_less_table_raises sample_hole_less_parts).
  - discriminate.
  - repeat constructor.
Defined.

Lemma all_na_false_exists (d : pydict pyval) :
  all_na d = false → ∃ k v, In (k, v) d ∧ isna v = false.
Proof.
  unfold all_na, dict_values. induction d as [|[k v] d IH]; [discriminate|].
  cbn [map forallb snd]. destruct (isna v) eqn:E; cbn [andb].
  - intros H. destruct (IH H) as (k' & v' & Hin & Hv). exists k', v'. split; [right; exact Hin | exact Hv].
  - intros _. exists k, v. split; [left; reflexivity | exact E].
Qed.

Lemma holes_table_rows_In (dss : list (Z * list (pydict pyval))) (hr : Z * pydict pyval) :
  In hr (df_rows (holes_table dss)) →
  ∃ i ds d, In (i, ds) dss ∧ In d ds ∧ all_na d = false
            ∧ snd hr = ("part_index", PInt i) :: d.
Proof.
  cbn [holes_table df_rows]. intros Hin.
  assert (Hs : In (snd hr) (map snd (number_rows (flat_map part_block dss)))).
  { apply in_map. exact Hin. }
  rewrite number_rows_snd in Hs. apply in_map_iff in Hs as ([i d] & Heq & Hid).
  apply in_flat_map in Hid as ([j ds] & Hj & Hblock).
  unfold part_block, kept in Hblock. cbn [fst snd] in Hblock, Heq.
  apply in_map_iff in Hblock as (d' & [= <- <-] & Hd).
  apply filter_In in Hd as [Hd Hna].
  exists j, ds, d'. split; [exact Hj|]. split; [exact Hd|].
  split; [|symmetry; exact Heq]. destruct (all_na d'); [discriminate | reflexivity].
Qed.

(** X4.  No row of a returned holes table is blank: under [part_index] it
    holds the thirteen features, and at least one of them is neither [None]
    nor [NaN]. *)
Theorem hole_rows_not_blank (read : Parts) (h u : DataFrame pyval) :
  transform (extract read) = Ok (h, u) →
  Forall (fun hr =>
            ∃ i d, snd hr = ("part_index", PInt i) :: d
                   ∧ dict_keys d = feature_names
                   ∧ ∃ k v, In (k, v) d ∧ isna v = false)
    (df_rows h).
Proof.
  intros H. destruct (transform_Ok _ _ _ H) as (dss & Hdss & _ & -> & _ & _).
  apply List.Forall_forall. intros hr Hin.
  apply holes_table_rows_In in Hin as (i & ds & d & Hi & Hd & Hna & Hrow).
  exists i, d. split; [exact Hrow|]. split; [|apply all_na_false_exists; exact Hna].
  apply extracted_parts_records in Hdss. rewrite List.Forall_forall in Hdss.
  specialize (Hdss _ Hi). cbn [snd] in Hdss. rewrite List.Forall_forall in Hdss.
  specialize (Hdss _ Hd). destruct_record Hdss. subst d. reflexivity.
Qed.

Lemma hole_rows_not_blank_witness :
  ∃ h u, transform (extract sample_parts) = Ok (h, u)
    ∧ Forall (fun hr =>
                ∃ i d, snd hr = ("part_index", PInt i) :: d
                       ∧ dict_keys d = feature_names
                       ∧ ∃ k v, In (k, v) d ∧ isna v = false)
        (df_rows h).
Proof.
  eexists _, _. split; [vm_compute; reflexivity|].
  eapply (hole_rows_not_blank sample_parts). vm_compute. reflexivity.
Defined.

(** * Further properties of the classifier *)

(** A Python number: [bool], [int] or [float]. *)
Definition is_number (v : pyval) : bool :=
  match as_num v with
  | Some _ => true
  | None => false
  end.

Lemma flags_of_numbers (length radius : pyval) :
  is_number length = true → is_number radius = true →
  (∃ b, has_warning length radius = Ok b) ∧ (∃ b, has_error length radius = Ok b).
Proof.
  intros Hl Hr.
  destruct radius; try discriminate; destruct length; try discriminate;
    split; eexists; reflexivity.
Qed.

Lemma mapM_error_after_warning (rows : list (Z * pydict pyval)) (ws : list (Z * pyval)) :
  length ws = length rows →
  mapM (fun ir => v ← row_error (snd ir); Ok (fst ir, v))
    (zip_with (fun ir iv => (fst ir, dict_set (snd ir) warning_col (snd iv))) rows ws) =
  mapM (fun ir => v ← row_error (snd ir); Ok (fst ir, v)) rows.
Proof.
  revert ws. induction rows as [|[i row] rows IH]; intros [|w ws] Hlen;
    try discriminate; [reflexivity|].
  cbn [zip_with mapM fst snd]. rewrite row_error_set_warning.
  rewrite IH by (injection Hlen; auto). reflexivity.
Qed.

Lemma mapM_Forall_Ok {A B} (f : A → outcome B) (l : list A) :
  Forall (fun x => ∃ y, f x = Ok y) l → ∃ k, mapM f l = Ok k.
Proof.
  intros H. apply Forall_Ok_Forall2 in H as [k Hk]. exists k.
  apply mapM_Ok_Forall2. exact Hk.
Qed.

Lemma mem_set_column (k k' : string) (cols : list string) :
  mem k cols = true → mem k (if mem k' cols then cols else (cols ++ [k'])%list) = true.
Proof.
  intros H. destruct (mem k' cols); [exact H|].
  unfold mem. rewrite existsb_app. unfold mem in H. rewrite H. reflexivity.
Qed.

Lemma mem_set_column_same (k : string) (cols : list string) :
  mem k (if mem k cols then cols else (cols ++ [k])%list) = true.
Proof.
  destruct (mem k cols) eqn:E; [exact E|].
  unfold mem. rewrite existsb_app. cbn [existsb]. rewrite String.eqb_refl.
  rewrite orb_true_r. reflexivity.
Qed.

(** The classifier returns when every row has both flags. *)
Lemma create_unreachable_df_returns (t : DataFrame pyval) :
  df_rows t ≠ [] →
  Forall (fun ir => (∃ w, row_warning (snd ir) = Ok w)
                    ∧ (∃ e, row_error (snd ir) = Ok e)) (df_rows t) →
  ∃ h u, create_unreachable_df t = Ok (h, u).
Proof.
  intros Hne Hall. unfold create_unreachable_df.
  destruct (mapM_Forall_Ok
              (fun ir : Z * pydict pyval => v ← row_warning (snd ir); Ok (fst ir, v))
              (df_rows t)) as [ws Hws].
  { eapply Forall_impl; [exact Hall|]. intros ir [[w Hw] _]. rewrite Hw. eexists. reflexivity. }
  destruct (mapM_Forall_Ok
              (fun ir : Z * pydict pyval => v ← row_error (snd ir); Ok (fst ir, v))
              (df_rows t)) as [es Hes].
  { eapply Forall_impl; [exact Hall|]. intros ir [_ [e He]]. rewrite He. eexists. reflexivity. }
  pose proof (mapM_Ok_length _ _ _ Hws) as Hlen.
  rewrite apply_rows_cons by exact Hne. rewrite Hws. cbn [mbind outcome_bind].
  cbn [set_column df_rows df_index_name df_columns s_items].
  rewrite apply_rows_cons.
  2:{ destruct (df_rows t) as [|r rows]; [congruence|].
      destruct ws; [discriminate | discriminate]. }
  rewrite mapM_error_after_warning by exact Hlen. rewrite Hes.
  cbn [mbind outcome_bind]. unfold select_columns, drop_columns.
  cbn [set_column df_rows df_index_name df_columns s_items forallb].
  rewrite mem_set_column by apply mem_set_column_same.
  rewrite mem_set_column_same. cbn [andb mbind outcome_bind].
  eexists _, _. reflexivity.
Qed.

(** X5.  For an integer [length] and an integer [radius] that is not
    negative, the error flag implies the warning flag. *)
Theorem error_implies_warning (l r : Z) :
  (0 <= r)%Z →
  has_error (PInt l) (PInt r) = Ok true →
  has_warning (PInt l) (PInt r) = Ok true.
Proof.
  rewrite has_error_int, has_warning_int. intros Hr [= He]. f_equal.
  apply Z.gtb_gt in He. apply Z.gtb_gt. lia.
Qed.

Lemma error_implies_warning_witness : has_warning (PInt 500) (PInt 4) = Ok true.
Proof. apply (error_implies_warning 500 4); [lia | reflexivity]. Defined.

(** With a negative radius the implication fails. *)
Example error_without_warning :
  has_error (PInt (-100)) (PInt (-2)) = Ok true
  ∧ has_warning (PInt (-100)) (PInt (-2)) = Ok false.
Proof. split; reflexivity. Qed.

(** * When the transform returns *)

(** A descriptor object whose groups are absent or objects and whose [length]
    and [radius] are numbers, [length] not being [NaN]. *)
Definition good_hole (hole : pyval) : Prop :=
  ∃ (m : gmap string pyval) (l r : pyval),
    hole = PDict m ∧ groups_ok m = true
    ∧ m !! "length" = Some l ∧ m !! "radius" = Some r
    ∧ is_number l = true ∧ isna l = false ∧ is_number r = true.

Definition good_record (d : pydict pyval) : Prop :=
  is_record d ∧ all_na d = false
  ∧ ∃ l r, dict_get d "length" = Some l ∧ dict_get d "radius" = Some r
           ∧ is_number l = true ∧ is_number r = true.

Lemma all_na_In (d : pydict pyval) (k : string) (v : pyval) :
  In (k, v) d → isna v = false → all_na d = false.
Proof.
  unfold all_na, dict_values. induction d as [|[k' v'] d IH]; intros Hin Hv; [destruct Hin|].
  cbn [map forallb snd]. destruct Hin as [[= -> ->]|Hin].
  - rewrite Hv. reflexivity.
  - rewrite (IH Hin Hv). apply andb_false_r.
Qed.

Lemma good_hole_record (hole : pyval) :
  good_hole hole → ∃ d, extract_hole hole = Ok d ∧ good_record d.
Proof.
  intros (m & l & r & -> & Hg & Hl & Hr & Hnl & Hna & Hnr).
  destruct (extract_hole (PDict m)) as [d| |] eqn:E;
    try (rewrite extract_hole_total, Hg in E; discriminate).
  exists d. split; [reflexivity|].
  pose proof (extract_hole_Ok_shape _ _ E) as Hshape.
  rewrite extract_hole_total, Hg in E. injection E as E. symmetry in E.
  cbn [map fst snd] in E. rewrite !extract_feature_top, Hl, Hr in E.
  cbn [default] in E. unfold hole_record, feature_names in E. cbn [combine] in E.
  split; [exact Hshape|]. split.
  - apply (all_na_In d "length" l); [|exact Hna]. subst d. cbn [In]. auto 20.
  - exists l, r. subst d. repeat split; assumption.
Qed.

Lemma good_holes_records (hs : list pyval) :
  Forall good_hole hs →
  ∃ ds, mapM extract_hole hs = Ok ds ∧ Forall good_record ds ∧ length ds = length hs.
Proof.
  induction 1 as [|hole hs Hh _ (ds & Hds & Hgood & Hlen)].
  - exists []. repeat split; constructor.
  - destruct (good_hole_record hole Hh) as (d & Hd & Hgd).
    exists (d :: ds). cbn [mapM]. rewrite Hd. cbn [mbind outcome_bind]. rewrite Hds.
    split; [reflexivity|]. split; [constructor; assumption|]. cbn [length]. rewrite Hlen.
    reflexivity.
Qed.

Lemma kept_good (ds : list (pydict pyval)) :
  Forall good_record ds → kept ds = ds.
Proof.
  unfold kept. induction 1 as [|d ds (_ & Hna & _) _ IH]; [reflexivity|].
  cbn [List.filter]. rewrite Hna. cbn [negb]. rewrite IH. reflexivity.
Qed.

Lemma good_parts_extracted (rows : list (Z * holes_field)) :
  Forall (fun ir => ∃ hs, descriptors (snd ir) = Ok hs ∧ Forall good_hole hs) rows →
  ∃ dss, extracted_parts rows = Ok dss
         ∧ Forall (fun ids => Forall good_record (snd ids)) dss
         ∧ Forall2 (fun ir ids => ∃ hs, descriptors (snd ir) = Ok hs
                                        ∧ length (snd ids) = length hs) rows dss.
Proof.
  unfold extracted_parts.
  induction 1 as [|[i f] rows (hs & Hhs & Hgood) _ (dss & Hdss & Hrec & Hlen)].
  - exists []. repeat split; constructor.
  - destruct (good_holes_records hs Hgood) as (ds & Hds & Hgds & Hl).
    exists ((i, ds) :: dss). cbn [mapM fst snd]. cbn [snd] in Hhs.
    assert (Hp : part_holes f = Ok ds) by (unfold part_holes; rewrite Hhs; exact Hds).
    rewrite Hp. cbn [mbind outcome_bind]. rewrite Hdss.
    split; [reflexivity|]. split; [constructor; assumption|].
    constructor; [|exact Hlen]. exists hs. split; [exact Hhs | exact Hl].
Qed.

Lemma no_holes_false (dss : list (Z * list (pydict pyval))) (i : Z)
    (d : pydict pyval) (ds : list (pydict pyval)) :
  In (i, d :: ds) dss → no_holes dss = false.
Proof.
  unfold no_holes. induction dss as [|ids dss IH]; intros Hin; [destruct Hin|].
  cbn [forallb]. destruct Hin as [->|Hin]; [reflexivity|].
  rewrite (IH Hin). apply andb_false_r.
Qed.

(** X6.  The transform returns both tables whenever every part's
    descriptors are objects whose groups [center], [direction], [end1],
    [end2] are absent or objects and whose [length] and [radius] are numbers
    ([length] not [NaN]), and at least one part has a descriptor. *)
Theorem transform_returns (read : Parts) :
  Forall (fun ir => ∃ hs, descriptors (snd ir) = Ok hs ∧ Forall good_hole hs)
    (parts_rows read) →
  Exists (fun ir => ∃ hs, descriptors (snd ir) = Ok hs ∧ hs ≠ []) (parts_rows read) →
  ∃ h u, transform (extract read) = Ok (h, u).
Proof.
  intros Hall Hex.
  destruct (good_parts_extracted _ Hall) as (dss & Hdss & Hgood & Hlen).
  assert (Hin : ∃ i d ds, In (i, d :: ds) dss).
  { clear -Hex Hlen. induction Hlen as [|ir [i ds] rows dss (hs & Hhs & Hl) _ IH].
    - inversion Hex.
    - inversion Hex as [? ? (hs' & Hhs' & Hne)|? ? Hex']; subst.
      + rewrite Hhs in Hhs'. injection Hhs' as <-. cbn [snd] in Hl.
        destruct ds as [|d ds]; [destruct hs; [congruence | discriminate]|].
        exists i, d, ds. left. reflexivity.
      + destruct (IH Hex') as (i' & d & ds' & Hin). exists i', d, ds'. right. exact Hin. }
  destruct Hin as (i & d & ds & Hin).
  assert (Hrows : parts_rows read ≠ []).
  { intros E. rewrite E in Hex. inversion Hex. }
  unfold transform. rewrite create_holes_df_eq by exact Hrows. rewrite Hdss.
  cbn [mbind outcome_bind]. rewrite (no_holes_false dss i d ds Hin).
  cbn [mbind outcome_bind].
  apply create_unreachable_df_returns.
  - cbn [holes_table df_rows]. intros E.
    assert (Hl : length (number_rows (flat_map part_block dss)) = 0%nat) by (rewrite E; reflexivity).
    rewrite number_rows_length in Hl.
    assert (Hd : In (i, d) (flat_map part_block dss)).
    { apply in_flat_map. exists (i, d :: ds). split; [exact Hin|].
      unfold part_block. cbn [fst snd]. rewrite List.Forall_forall in Hgood.
      rewrite (kept_good (d :: ds) (Hgood _ Hin)). left. reflexivity. }
    destruct (flat_map part_block dss); [destruct Hd | discriminate].
  - apply List.Forall_forall. intros hr Hhr.
    apply holes_table_rows_In in Hhr as (j & ds' & d' & Hj & Hd' & _ & Hrow).
    rewrite List.Forall_forall in Hgood. specialize (Hgood _ Hj). cbn [snd] in Hgood.
    rewrite List.Forall_forall in Hgood. destruct (Hgood _ Hd') as (_ & _ & l & r & Hl & Hr & Hnl & Hnr).
    destruct (flags_of_numbers l r Hnl Hnr) as [[bw Hw] [be He]].
    unfold row_warning, row_error, row_get. rewrite Hrow.
    cbn [dict_get String.eqb Ascii.eqb Bool.eqb]. rewrite Hl, Hr.
    cbn [mbind outcome_bind]. rewrite Hw, He. split; eexists; reflexivity.
Qed.

Lemma transform_returns_witness :
  ∃ h u, transform (extract (mkParts None [ (0, HNull); (1, HJson (PList [hole_100_4])) ]))
         = Ok (h, u).
Proof.
  apply transform_returns.
  - constructor; [exists []; split; [reflexivity | constructor]|].
    constructor; [|constructor].
    exists [hole_100_4]. split; [reflexivity|]. constructor; [|constructor].
    exists {[ "length" := PInt 100; "radius" := PInt 4 ]}, (PInt 100), (PInt 4).
    repeat split; reflexivity.
  - right. left. exists [hole_100_4]. split; [reflexivity | discriminate].
Defined.
